(** * 2PFx: Two-Point Flow lossless video codec

    A shallow embedding of [TwoPointFlowCompressor] (2pfx_prototype.py):
    [compress] writes a container of per-frame records (a packed stream of
    4-bit symbols and a side channel of 16-bit values), [decompress] reads
    one back.  Files are lists of bytes, numpy arrays are a shape with
    row-major data, Python exceptions are values of [exn]. *)

From Stdlib Require Import ZArith Lia.
From stdpp Require Import base list strings.

(** ** Exceptions and the two monads the code runs in *)

(** The exceptions the two methods can raise: [ValueError] (the code's own
    raises, numpy's broadcast failure, [bytearray.append] out of range),
    [struct.error] and [IndexError]. *)
Inductive exn : Type :=
  | ValueError (msg : string)
  | StructError
  | IndexError.

Inductive result (A : Type) : Type :=
  | Ok (a : A)
  | Raise (e : exn).
Arguments Ok {A} a.
Arguments Raise {A} e.

Definition rbind {A B} (m : result A) (k : A -> result B) : result B :=
  match m with
  | Ok a => k a
  | Raise e => Raise e
  end.

Notation "'letR' x ':=' m 'in' k" := (rbind m (fun x => k))
  (at level 10, x pattern, m at level 100, k at level 200).

(** A loop body run over a list, left to right, stopping at the first raise. *)
Fixpoint foldM {A B} (f : A -> B -> result A) (l : list B) (a : A) : result A :=
  match l with
  | [] => Ok a
  | b :: l' => letR a' := f a b in foldM f l' a'
  end.

(** Computations over an open file.  For [compress] the state is the bytes
    written so far; for [decompress] it is the bytes not read yet. *)
Definition io (A : Type) : Type := list Z -> result A * list Z.

Definition ret {A} (a : A) : io A := fun s => (Ok a, s).
Definition raise {A} (e : exn) : io A := fun s => (Raise e, s).
Definition bind {A B} (m : io A) (k : A -> io B) : io B :=
  fun s => match m s with
           | (Ok a, s') => k a s'
           | (Raise e, s') => (Raise e, s')
           end.
Definition lift {A} (r : result A) : io A := fun s => (r, s).

Notation "'letM' x ':=' m 'in' k" := (bind m (fun x => k))
  (at level 10, x pattern, m at level 100, k at level 200).

(** [f.write(bs)] *)
Definition write (bs : list Z) : io unit := fun s => (Ok tt, s ++ bs).
(** [f.read(n)]: up to [n] bytes, fewer at the end of the file. *)
Definition read (n : nat) : io (list Z) := fun s => (Ok (take n s), drop n s).

(** ** struct and int.from_bytes *)

Definition is_byte (b : Z) : Prop := (0 <= b < 256)%Z.

(** [n] little-endian bytes of [v]. *)
Fixpoint le_bytes (n : nat) (v : Z) : list Z :=
  match n with
  | O => []
  | S n' => (v mod 256)%Z :: le_bytes n' (v / 256)%Z
  end.

(** The unsigned value of little-endian bytes. *)
Fixpoint le_value (bs : list Z) : Z :=
  match bs with
  | [] => 0%Z
  | b :: bs' => (b + 256 * le_value bs')%Z
  end.

(** Two's-complement wrap-around of a 16-bit signed integer. *)
Definition wrap16 (v : Z) : Z := ((v + 32768) mod 65536 - 32768)%Z.

(** [struct.pack("<I", v)] *)
Definition pack_I (v : Z) : result (list Z) :=
  if ((0 <=? v) && (v <? 2 ^ 32))%Z then Ok (le_bytes 4 v) else Raise StructError.

(** [struct.pack("<h", v)] *)
Definition pack_h (v : Z) : result (list Z) :=
  if ((-32768 <=? v) && (v <? 32768))%Z
  then Ok (le_bytes 2 (v mod 65536)%Z) else Raise StructError.

(** [struct.pack("<III", a, b, c)] *)
Definition pack_III (a b c : Z) : result (list Z) :=
  letR x := pack_I a in letR y := pack_I b in letR z := pack_I c in
  Ok (x ++ y ++ z).

(** [struct.pack("<II", a, b)] *)
Definition pack_II (a b : Z) : result (list Z) :=
  letR x := pack_I a in letR y := pack_I b in Ok (x ++ y).

(** [struct.unpack("<III", bs)]: needs exactly 12 bytes. *)
Definition unpack_III (bs : list Z) : result (Z * Z * Z) :=
  if decide (length bs = 12)
  then Ok (le_value (take 4 bs), le_value (take 4 (drop 4 bs)),
           le_value (take 4 (drop 8 bs)))
  else Raise StructError.

(** [struct.unpack("<II", bs)]: needs exactly 8 bytes. *)
Definition unpack_II (bs : list Z) : result (Z * Z) :=
  if decide (length bs = 8)
  then Ok (le_value (take 4 bs), le_value (take 4 (drop 4 bs)))
  else Raise StructError.

(** [struct.unpack_from("<h", buf, offset)[0]]: needs 2 bytes at [offset]. *)
Definition unpack_from_h (buf : list Z) (offset : nat) : result Z :=
  if decide (offset + 2 <= length buf)
  then Ok (wrap16 (le_value (take 2 (drop offset buf))))
  else Raise StructError.

(** [int.from_bytes(bs, "big")] *)
Definition from_bytes_big (bs : list Z) : Z :=
  fold_left (fun acc b => (acc * 256 + b)%Z) bs 0%Z.

(** ** numpy arrays of three dimensions *)

(** An array of shape (h, w, c) with its elements in row-major order.
    Frames given to [compress] and returned by [decompress] have dtype
    uint8; the working arrays have dtype int16. *)
Record ndarray : Type := NdArray {
  nd_shape : nat * nat * nat;
  nd_data : list Z
}.

Definition shape_size (sh : nat * nat * nat) : nat :=
  let '(h, w, c) := sh in h * w * c.

(** A numpy array holds as many elements as its shape says. *)
Definition nd_wf (a : ndarray) : Prop :=
  length (nd_data a) = shape_size (nd_shape a).

(** The input dtype: every element an 8-bit unsigned integer. *)
Definition is_uint8 (a : ndarray) : Prop :=
  Forall (fun v => (0 <= v <= 255)%Z) (nd_data a).

(** [np.zeros(sh, dtype=np.int16)], where numpy can allocate the array.
    For a shape too large numpy raises ValueError (array is too big) or
    MemoryError; that failure of the allocation is not modelled, so a
    statement about [decompress] as a whole holds where the reference of
    the header's shape can be allocated. *)
Definition np_zeros (sh : nat * nat * nat) : ndarray :=
  NdArray sh (replicate (shape_size sh) 0%Z).

(** [a.astype(np.int16)] *)
Definition astype_int16 (a : ndarray) : ndarray :=
  NdArray (nd_shape a) (wrap16 <$> nd_data a).

(** [a[y, x, k]] for indices in range. *)
Definition nd_get (a : ndarray) (y x k : nat) : Z :=
  let '(_, w, c) := nd_shape a in
  nd_data a !!! ((y * w + x) * c + k).

(** Broadcasting of one dimension: equal sizes, or one of them 1. *)
Definition bdim (a b : nat) : option nat :=
  if a =? b then Some a
  else if a =? 1 then Some b
  else if b =? 1 then Some a
  else None.

(** The index into an operand whose dimension may be stretched. *)
Definition bidx (dim i : nat) : nat := if dim =? 1 then 0 else i.

(** An elementwise binary operation of two arrays under numpy's
    broadcasting rules.  The message of the ValueError is numpy's without
    the two shapes that follow it. *)
Definition broadcast2 (op : Z -> Z -> Z) (a b : ndarray) : result ndarray :=
  let '(ha, wa, ca) := nd_shape a in
  let '(hb, wb, cb) := nd_shape b in
  match bdim ha hb, bdim wa wb, bdim ca cb with
  | Some h, Some w, Some c =>
      Ok (NdArray (h, w, c)
            (flat_map (fun y =>
               flat_map (fun x =>
                 map (fun k => op (nd_get a (bidx ha y) (bidx wa x) (bidx ca k))
                                  (nd_get b (bidx hb y) (bidx wb x) (bidx cb k)))
                     (seq 0 c))
                 (seq 0 w))
               (seq 0 h)))
  | _, _, _ => Raise (ValueError "operands could not be broadcast together")
  end.

(** int16 [a - b] and [a + b]: the result wraps around. *)
Definition nd_sub : ndarray -> ndarray -> result ndarray :=
  broadcast2 (fun u v => wrap16 (u - v)).
Definition nd_add : ndarray -> ndarray -> result ndarray :=
  broadcast2 (fun u v => wrap16 (u + v)).

(** [a[y, x]]: the channel vector of one pixel, or IndexError. *)
Definition nd_pixel (a : ndarray) (y x : nat) : result (list Z) :=
  let '(h, w, c) := nd_shape a in
  if (y <? h) && (x <? w)
  then Ok (take c (drop ((y * w + x) * c) (nd_data a)))
  else Raise IndexError.

(** [np.clip(a, 0, 255).astype(np.uint8)] *)
Definition clip255 (v : Z) : Z := Z.min (Z.max v 0) 255.
Definition astype_uint8 (v : Z) : Z := (v mod 256)%Z.
Definition clip_uint8 (a : ndarray) : ndarray :=
  NdArray (nd_shape a) ((fun v => astype_uint8 (clip255 v)) <$> nd_data a).

(** ** compress *)

(** [self.version = b"2PFX"] *)
Definition version : list Z := [50; 80; 70; 88]%Z.

(** [open(output_path, "wb")]: the file starts empty. *)
Definition open_wb : io unit := fun _ => (Ok tt, []).

(** The encoder's per-frame variables. *)
Record enc_state : Type := EncState {
  binary_bits : list Z;
  decimal_vals : list Z;
  bit_count : nat;
  current_byte : Z
}.

(** [bytearray.append(b)] *)
Definition bytearray_append (ba : list Z) (b : Z) : result (list Z) :=
  if ((0 <=? b) && (b <? 256))%Z then Ok (ba ++ [b])
  else Raise (ValueError "byte must be in range(0, 256)").

(** The 4-bit symbol of one delta component (lines 40-44). *)
Definition symbol_of (comp : Z) : Z :=
  let abs_c := wrap16 (Z.abs comp) in
  if (abs_c <=? 7)%Z
  then (if (0 <=? comp)%Z then abs_c else Z.lor 8 abs_c)
  else 8%Z.

(** The body of the innermost loop (lines 40-52).  The components of the
    delta of uint8 frames lie in [-255, 255]; there [current_byte] never
    leaves the range of a byte.  The wrap-around of numpy's int16 in the
    shift, which only a component -32768 of frames of another dtype can
    bring about, is not modelled. *)
Definition encode_comp (st : enc_state) (comp : Z) : result enc_state :=
  let abs_c := wrap16 (Z.abs comp) in
  let val := symbol_of comp in
  let cur := Z.lor (Z.shiftl (current_byte st) 4) val in
  let cnt := bit_count st + 4 in
  letR (bb, cur', cnt') :=
    (if 8 <=? cnt
     then letR bb := bytearray_append (binary_bits st) cur in Ok (bb, 0%Z, 0)
     else Ok (binary_bits st, cur, cnt)) in
  letR dv :=
    (if (7 <? abs_c)%Z
     then letR p := pack_h comp in Ok (decimal_vals st ++ p)
     else Ok (decimal_vals st)) in
  Ok (EncState bb dv cnt' cur').

(** [for comp in delta[y, x]: ...] *)
Definition encode_pixel (delta : ndarray) (y : nat) (st : enc_state) (x : nat)
  : result enc_state :=
  letR comps := nd_pixel delta y x in foldM encode_comp comps st.

(** [for x in range(W): ...] *)
Definition encode_row (delta : ndarray) (W : nat) (st : enc_state) (y : nat)
  : result enc_state :=
  foldM (encode_pixel delta y) (seq 0 W) st.

(** Lines 54-56: the last symbol of an odd count is padded to a byte. *)
Definition enc_flush (st : enc_state) : result (list Z * list Z) :=
  letR bb :=
    (if 0 <? bit_count st
     then bytearray_append (binary_bits st)
            (Z.shiftl (current_byte st) (Z.of_nat (8 - bit_count st)))
     else Ok (binary_bits st)) in
  Ok (bb, decimal_vals st).

(** Lines 32-56: the symbols of one delta array packed two per byte, and
    the side channel of the escaped values. *)
Definition encode_frame (H W : nat) (delta : ndarray) : result (list Z * list Z) :=
  letR st := foldM (encode_row delta W) (seq 0 H) (EncState [] [] 0 0%Z) in
  enc_flush st.

(** The loop over the frames (lines 28-62). *)
Fixpoint compress_frames (H W : nat) (frames : list ndarray) (ref_frame : ndarray)
  : io unit :=
  match frames with
  | [] => ret tt
  | frame :: rest =>
      let frame_int := astype_int16 frame in
      letM delta := lift (nd_sub frame_int ref_frame) in
      letM (bb, dv) := lift (encode_frame H W delta) in
      letM hdr := lift (pack_II (Z.of_nat (length bb)) (Z.of_nat (length dv))) in
      letM _ := write hdr in
      letM _ := write bb in
      letM _ := write dv in
      compress_frames H W rest frame_int
  end.

(** [TwoPointFlowCompressor.compress(frames, output_path)], run on the
    previous contents of the output file. *)
Definition compress (frames : list ndarray) : io unit :=
  match frames with
  | [] => raise (ValueError "No frames provided")
  | f0 :: _ =>
      let '(H, W, C) := nd_shape f0 in
      if negb (C =? 3) then raise (ValueError "Frames must be RGB (3 channels)")
      else
        let ref_frame := np_zeros (H, W, 3) in
        letM _ := open_wb in
        letM _ := write version in
        letM hdr := lift (pack_III (Z.of_nat (length frames)) (Z.of_nat H) (Z.of_nat W)) in
        letM _ := write hdr in
        compress_frames H W frames ref_frame
  end.

(** ** decompress *)

(** The decoder's per-frame variables. *)
Record dec_state : Type := DecState {
  dec_delta : ndarray;
  dec_offset : nat;
  bits_left : nat
}.

(** [a[y, x, k] = v] for indices in range. *)
Definition nd_set (a : ndarray) (y x k : nat) (v : Z) : ndarray :=
  let '(_, w, c) := nd_shape a in
  NdArray (nd_shape a) (<[(y * w + x) * c + k := v]> (nd_data a)).

(** The delta of a symbol that is not the escape code (line 100). *)
Definition small_delta (val : Z) : Z :=
  if (val <=? 7)%Z then val else (- Z.land val 7)%Z.

(** Lines 94-100: the delta of one symbol and the new side-channel offset;
    the escape code 8 takes the next 16-bit value of the side channel. *)
Definition decode_symbol (decimal_data : list Z) (dec_len : nat) (val : Z)
    (dec_offset : nat) : result (Z * nat) :=
  if (val =? 8)%Z
  then if dec_len <? dec_offset + 2
       then Raise (ValueError "Missing large delta bytes")
       else letR comp := unpack_from_h decimal_data dec_offset in
            Ok (comp, dec_offset + 2)
  else Ok (small_delta val, dec_offset).

Section decode.
Variables (W : nat) (bitstream : Z) (decimal_data : list Z) (dec_len : nat).

(** The body of [for c in range(3)] after the break test (lines 92-101). *)
Definition decode_channel (pixel_idx : nat) (st : dec_state) (c : nat)
  : result dec_state :=
  let y := pixel_idx / W in
  let x := pixel_idx mod W in
  let val := Z.land (Z.shiftr bitstream (Z.of_nat (bits_left st - 4))) 15 in
  let left := bits_left st - 4 in
  letR (comp, off) := decode_symbol decimal_data dec_len val (dec_offset st) in
  Ok (DecState (nd_set (dec_delta st) y x c comp) off left).

(** [for c in range(3): if bits_left < 4: break ...] *)
Fixpoint decode_pixel (pixel_idx : nat) (cs : list nat) (st : dec_state)
  : result dec_state :=
  match cs with
  | [] => Ok st
  | c :: cs' =>
      if bits_left st <? 4 then Ok st
      else letR st' := decode_channel pixel_idx st c in
           decode_pixel pixel_idx cs' st'
  end.

(** [while pixel_idx < H * W and bits_left >= 4: ...; pixel_idx += 1].
    The recursion is on [todo = H * W - pixel_idx], so the first test of
    the loop condition is the match on [todo]. *)
Fixpoint decode_while (todo pixel_idx : nat) (st : dec_state) : result dec_state :=
  match todo with
  | O => Ok st
  | S todo' =>
      if 4 <=? bits_left st
      then letR st' := decode_pixel pixel_idx (seq 0 3) st in
           decode_while todo' (pixel_idx + 1) st'
      else Ok st
  end.
End decode.

(** Lines 81-105: the delta array of one frame record.  The message of the
    last raise is given without its two formatted counts. *)
Definition decode_delta (H W : nat) (binary_data decimal_data : list Z) (dec_len : nat)
  : result ndarray :=
  let delta := np_zeros (H, W, 3) in
  let bitstream := from_bytes_big binary_data in
  let left := length binary_data * 8 in
  letR st := decode_while W bitstream decimal_data dec_len (H * W) 0
               (DecState delta 0 left) in
  if negb (dec_offset st =? dec_len)
  then Raise (ValueError "Decimal data mismatch")
  else Ok (dec_delta st).

(** Lines 77-79: the two lengths and the two payloads of a frame record. *)
Definition read_record : io (list Z * list Z * nat) :=
  letM lens := read 8 in
  letM (bin_len, dec_len) := lift (unpack_II lens) in
  letM binary_data := read (Z.to_nat bin_len) in
  letM decimal_data := read (Z.to_nat dec_len) in
  ret (binary_data, decimal_data, Z.to_nat dec_len).

(** Lines 107-111: the output frame and the reference of the next frame. *)
Definition reconstruct (ref_frame delta : ndarray) : result (ndarray * ndarray) :=
  letR frame_int := nd_add ref_frame delta in
  Ok (clip_uint8 frame_int, frame_int).

(** The loop over the frame records (lines 76-111). *)
Fixpoint decompress_frames (n_frames H W : nat) (ref_frame : ndarray)
    (frames_out : list ndarray) : io (list ndarray) :=
  match n_frames with
  | O => ret frames_out
  | S n' =>
      letM (binary_data, decimal_data, dec_len) := read_record in
      letM delta := lift (decode_delta H W binary_data decimal_data dec_len) in
      letM (frame, frame_int) := lift (reconstruct ref_frame delta) in
      decompress_frames n' H W frame_int (frames_out ++ [frame])
  end.

(** [TwoPointFlowCompressor.decompress(input_path)], run on the contents
    of the input file.  The multiplication sign in the message of the first
    raise is written x. *)
Definition decompress : io (list ndarray) :=
  letM magic := read 4 in
  if decide (magic = version)
  then
    letM hdr := read 12 in
    letM (n_frames, H, W) := lift (unpack_III hdr) in
    let ref_frame := np_zeros (Z.to_nat H, Z.to_nat W, 3) in
    decompress_frames (Z.to_nat n_frames) (Z.to_nat H) (Z.to_nat W) ref_frame []
  else raise (ValueError "Not a 2PFx file").

(** ** Definitions used to state the properties *)

(** The side-channel bytes the encoder appends for one delta component. *)
Definition side_entry (comp : Z) : list Z :=
  if (7 <? wrap16 (Z.abs comp))%Z then le_bytes 2 (comp mod 65536)%Z else [].

(** The states the encoder can be in between two symbols: on a byte
    boundary, or holding one symbol in [current_byte]. *)
Definition enc_wf (st : enc_state) : Prop :=
  (bit_count st = 0 /\ current_byte st = 0%Z) \/
  (bit_count st = 4 /\ (0 <= current_byte st < 16)%Z).

(** Stated from the spec (Bitstream): the symbol stream packed two symbols
    per byte, the first in the high nibble, the second in the low nibble;
    the low nibble of the last byte of an odd stream is zero. *)
Fixpoint spec_pack (syms : list Z) : list Z :=
  match syms with
  | a :: b :: rest => (16 * a + b)%Z :: spec_pack rest
  | [a] => [16 * a]%Z
  | [] => []
  end.

(** The delta array of a frame against the reference, both of shape
    H x W x 3. *)
Definition frame_delta (H W : nat) (frame ref : ndarray) : ndarray :=
  NdArray (H, W, 3)
    (zip_with (fun u v => wrap16 (u - v)) (nd_data frame) (nd_data ref)).

(** The deltas that are sent through the side channel, in stream order. *)
Definition escaped (comps : list Z) : list Z :=
  filter (fun d => symbol_of d = 8%Z) comps.

(** The nibbles of a byte string, high nibble first. *)
Definition nibbles_of (bs : list Z) : list Z :=
  flat_map (fun b => [b / 16; b mod 16]%Z) bs.

(** The symbol decoder run over a list of symbols: the deltas and the
    side-channel offset reached, or the first raise. *)
Fixpoint decode_syms (dd : list Z) (dl : nat) (syms : list Z) (off : nat)
  : result (list Z * nat) :=
  match syms with
  | [] => Ok ([], off)
  | v :: rest =>
      letR (comp, off') := decode_symbol dd dl v off in
      letR (comps, off'') := decode_syms dd dl rest off' in
      Ok (comp :: comps, off'')
  end.

(** [data] with [cs] written over the positions from [i] on. *)
Definition splice (data : list Z) (i : nat) (cs : list Z) : list Z :=
  take i data ++ cs ++ drop (i + length cs) data.

(** Stated from the spec (Unpack): the first [H * W * 3] nibbles of the
    bitstream, as many as there are, are decoded in order against the side
    channel; the side channel must be used up; positions without a symbol
    keep the zero of the fresh delta array. *)
Definition spec_decode (H W : nat) (bd dd : list Z) (dl : nat) : result ndarray :=
  letR (comps, off) := decode_syms dd dl (take (H * W * 3) (nibbles_of bd)) 0 in
  if negb (off =? dl)
  then Raise (ValueError "Decimal data mismatch")
  else Ok (NdArray (H, W, 3) (comps ++ replicate (H * W * 3 - length comps) 0%Z)).

(** The loop never changes the shape or the size of the delta array. *)
Definition same_array (st st' : dec_state) : Prop :=
  nd_shape (dec_delta st') = nd_shape (dec_delta st) /\
  length (nd_data (dec_delta st')) = length (nd_data (dec_delta st)).

(** A frame the codec is specified for: H x W x 3, dtype uint8. *)
Definition valid_frame (H W : nat) (f : ndarray) : Prop :=
  nd_shape f = (H, W, 3) /\ nd_wf f /\ is_uint8 f.

(** A file that holds a header for one frame of 1 x 1 pixels and a record
    whose bitstream is one byte, two symbols of the three expected, with
    no side channel: what remains when the record written for the frame
    (1, 2, 3), bitstream [18; 48], loses the last byte of its bitstream. *)
Definition truncated_file : list Z :=
  (version ++ [1; 0; 0; 0; 1; 0; 0; 0; 1; 0; 0; 0]
   ++ [1; 0; 0; 0; 0; 0; 0; 0] ++ [18])%Z.

(** Two frames of different shapes, the second with one channel. *)
Definition mixed_frames : list ndarray :=
  [NdArray (1, 1, 3) [1; 2; 3]%Z; NdArray (1, 2, 1) [9; 10]%Z].

(** Stated from the spec (FrameRecord): the two 32-bit little-endian byte
    lengths, then the bitstream, then the side channel of a frame encoded
    against a reference. *)
Definition frame_record (H W : nat) (frame ref : ndarray) : list Z :=
  let delta := nd_data (frame_delta H W frame ref) in
  let bb := spec_pack (symbol_of <$> delta) in
  let dv := flat_map side_entry delta in
  le_bytes 4 (Z.of_nat (length bb)) ++ le_bytes 4 (Z.of_nat (length dv)) ++ bb ++ dv.

(** The records of a sequence of frames, each encoded against the frame
    before it. *)
Fixpoint frame_records (H W : nat) (frames : list ndarray) (ref : ndarray) : list Z :=
  match frames with
  | [] => []
  | f :: rest => frame_record H W f ref ++ frame_records H W rest f
  end.

(** Stated from the spec (Container): magic, frameCount, height, width,
    then the records, the first one encoded against the zero reference. *)
Definition container (H W : nat) (frames : list ndarray) : list Z :=
  version ++ le_bytes 4 (Z.of_nat (length frames)) ++ le_bytes 4 (Z.of_nat H)
  ++ le_bytes 4 (Z.of_nat W) ++ frame_records H W frames (np_zeros (H, W, 3)).

(** The number of escape symbols among the symbols of a record that the
    decoder reads: the first H*W*3 nibbles of the bitstream. *)
Definition escapes_read (H W : nat) (bd : list Z) : nat :=
  length (filter (fun s => s = 8%Z) (take (H * W * 3) (nibbles_of bd))).

(** Two outcomes that agree on everything but the frames returned. *)
Definition same_outcome (r1 r2 : result (list ndarray) * list Z) : Prop :=
  match r1, r2 with
  | (Ok _, s1), (Ok _, s2) => s1 = s2
  | (Raise e1, s1), (Raise e2, s2) => e1 = e2 /\ s1 = s2
  | _, _ => False
  end.

(** * Properties *)

(** ** Integers, bytes and struct *)

Lemma wrap16_id v : (-32768 <= v < 32768)%Z -> wrap16 v = v.
Proof.
  intros Hv. unfold wrap16. rewrite Z.mod_small by lia. lia.
Qed.

Lemma length_le_bytes n v : length (le_bytes n v) = n.
Proof. revert v. induction n; intros; simpl; auto. Qed.

Lemma le_bytes_is_byte n v : Forall is_byte (le_bytes n v).
Proof.
  revert v. induction n; intros v; simpl; constructor; auto.
  unfold is_byte. apply Z.mod_pos_bound. lia.
Qed.

Lemma le_value_le_bytes n v :
  (0 <= v < 256 ^ Z.of_nat n)%Z -> le_value (le_bytes n v) = v.
Proof.
  revert v. induction n; intros v Hv.
  - simpl in *. lia.
  - cbn [le_bytes le_value]. rewrite IHn.
    + pose proof (Z.div_mod v 256). lia.
    + rewrite Nat2Z.inj_succ, Z.pow_succ_r in Hv by lia.
      split; [apply Z.div_pos; lia | apply Z.div_lt_upper_bound; lia].
Qed.

Lemma pack_I_ok v : (0 <= v < 2 ^ 32)%Z -> pack_I v = Ok (le_bytes 4 v).
Proof.
  intros Hv. unfold pack_I.
  destruct (Z.leb_spec 0 v), (Z.ltb_spec v (2 ^ 32)); simpl; auto; lia.
Qed.

Lemma pack_h_ok v :
  (-32768 <= v < 32768)%Z -> pack_h v = Ok (le_bytes 2 (v mod 65536)%Z).
Proof.
  intros Hv. unfold pack_h.
  destruct (Z.leb_spec (-32768) v), (Z.ltb_spec v 32768); simpl; auto; lia.
Qed.

(** What [struct.pack("<h")] writes, [struct.unpack_from("<h")] reads back. *)
Lemma unpack_pack_h (pre post : list Z) v :
  (-32768 <= v < 32768)%Z ->
  unpack_from_h (pre ++ le_bytes 2 (v mod 65536)%Z ++ post) (length pre) = Ok v.
Proof.
  intros Hv. unfold unpack_from_h.
  destruct (decide _) as [_|Hn].
  - rewrite drop_app_length.
    replace (take 2 (le_bytes 2 (v mod 65536)%Z ++ post))
      with (le_bytes 2 (v mod 65536)%Z) by reflexivity.
    rewrite le_value_le_bytes.
    + f_equal. unfold wrap16. Z.div_mod_to_equations. lia.
    + apply Z.mod_pos_bound. lia.
  - exfalso. apply Hn. rewrite !length_app. simpl. lia.
Qed.

(** ** The symbol codec *)

Lemma symbol_of_small d :
  (-7 <= d <= 7)%Z ->
  symbol_of d <> 8%Z /\ (0 <= symbol_of d < 16)%Z /\ small_delta (symbol_of d) = d.
Proof.
  intros Hd.
  assert (d = -7 \/ d = -6 \/ d = -5 \/ d = -4 \/ d = -3 \/ d = -2 \/ d = -1 \/
          d = 0 \/ d = 1 \/ d = 2 \/ d = 3 \/ d = 4 \/ d = 5 \/ d = 6 \/ d = 7)%Z
    as Hc by lia.
  repeat (destruct Hc as [-> | Hc]); try subst d;
    vm_compute; (split; [|split; [split|]]); congruence.
Qed.

Lemma symbol_of_large d :
  (7 < Z.abs d < 32768)%Z -> symbol_of d = 8%Z.
Proof.
  intros Hd. unfold symbol_of. rewrite wrap16_id by lia.
  destruct (Z.leb_spec (Z.abs d) 7); [lia | reflexivity].
Qed.

Lemma symbol_of_nibble d :
  (Z.abs d < 32768)%Z -> (0 <= symbol_of d < 16)%Z.
Proof.
  intros Hd. destruct (Z_le_gt_dec (Z.abs d) 7).
  - apply symbol_of_small. lia.
  - rewrite symbol_of_large by lia. lia.
Qed.

Lemma symbol_of_escape d :
  (Z.abs d < 32768)%Z -> (symbol_of d = 8%Z <-> (7 < Z.abs d)%Z).
Proof.
  intros Hd. split.
  - intros He. destruct (Z_le_gt_dec (Z.abs d) 7); [|lia].
    exfalso. destruct (symbol_of_small d) as [Hne _]; [lia | exact (Hne He)].
  - intros. apply symbol_of_large. lia.
Qed.

Lemma length_side_entry comp :
  length (side_entry comp) = if (7 <? wrap16 (Z.abs comp))%Z then 2 else 0.
Proof. unfold side_entry. destruct (7 <? _)%Z; reflexivity. Qed.

(** [(current_byte << 4) | val] puts [val] in the low nibble. *)
Lemma lor_shiftl_nibble a b :
  (0 <= b < 16)%Z -> Z.lor (Z.shiftl a 4) b = (16 * a + b)%Z.
Proof.
  intros Hb. rewrite Z.shiftl_mul_pow2 by lia.
  assert (Z.land (a * 2 ^ 4) b = 0%Z) as Hl.
  { apply Z.bits_inj'. intros n Hn. rewrite Z.land_spec, Z.bits_0.
    destruct (Z.lt_ge_cases n 4).
    - rewrite Z.mul_pow2_bits_low by lia. reflexivity.
    - rewrite <- (Z.mod_small b (2 ^ 4)) by lia.
      rewrite Z.mod_pow2_bits_high by lia. apply andb_false_r. }
  rewrite <- Z.lxor_lor by exact Hl.
  rewrite <- Z.add_nocarry_lxor by exact Hl. lia.
Qed.

(** One step of the encoder, on a byte boundary. *)
Lemma encode_comp_even bb dv comp :
  (Z.abs comp < 32768)%Z ->
  encode_comp (EncState bb dv 0 0) comp =
    Ok (EncState bb (dv ++ side_entry comp) 4 (symbol_of comp)).
Proof.
  intros Hc. unfold encode_comp, side_entry. cbn -[symbol_of wrap16 pack_h].
  rewrite Z.lor_0_l.
  destruct (Z.ltb_spec 7 (wrap16 (Z.abs comp))); cbn -[symbol_of wrap16 pack_h].
  - rewrite pack_h_ok by lia. reflexivity.
  - rewrite app_nil_r. reflexivity.
Qed.

(** One step of the encoder, with the high nibble waiting. *)
Lemma encode_comp_odd bb dv s comp :
  (0 <= s < 16)%Z -> (Z.abs comp < 32768)%Z ->
  encode_comp (EncState bb dv 4 s) comp =
    Ok (EncState (bb ++ [16 * s + symbol_of comp]%Z) (dv ++ side_entry comp) 0 0).
Proof.
  intros Hs Hc. pose proof (symbol_of_nibble comp Hc) as Hn.
  unfold encode_comp, side_entry, bytearray_append.
  cbn -[symbol_of wrap16 pack_h Z.shiftl Z.lor].
  rewrite lor_shiftl_nibble by exact Hn.
  destruct (Z.leb_spec 0 (16 * s + symbol_of comp)); [|lia].
  destruct (Z.ltb_spec (16 * s + symbol_of comp) 256); [|lia].
  cbn -[symbol_of wrap16 pack_h].
  destruct (Z.ltb_spec 7 (wrap16 (Z.abs comp))); cbn -[symbol_of wrap16 pack_h].
  - rewrite pack_h_ok by lia. reflexivity.
  - rewrite app_nil_r. reflexivity.
Qed.

Lemma decode_symbol_small dd dl val off :
  val <> 8%Z -> decode_symbol dd dl val off = Ok (small_delta val, off).
Proof.
  intros Hv. unfold decode_symbol.
  destruct (Z.eqb_spec val 8); [contradiction | reflexivity].
Qed.

(** The decoder, placed where the encoder started to write, reads back the
    delta of the symbol and stops where the encoder stopped. *)
Lemma decode_symbol_encoded pre post comp dl :
  (Z.abs comp < 32768)%Z ->
  length pre + length (side_entry comp) <= dl ->
  decode_symbol (pre ++ side_entry comp ++ post) dl (symbol_of comp) (length pre)
  = Ok (comp, length pre + length (side_entry comp)).
Proof.
  intros Hc Hdl. destruct (Z_le_gt_dec (Z.abs comp) 7) as [Hs|Hs].
  - destruct (symbol_of_small comp) as (Hne & _ & Hsm); [lia|].
    rewrite decode_symbol_small by exact Hne. rewrite Hsm.
    unfold side_entry. rewrite wrap16_id by lia.
    destruct (Z.ltb_spec 7 (Z.abs comp)); [lia|]. simpl. do 2 f_equal. lia.
  - unfold decode_symbol. rewrite symbol_of_large by lia. simpl.
    revert Hdl. unfold side_entry. rewrite wrap16_id by lia.
    destruct (Z.ltb_spec 7 (Z.abs comp)); [|lia]. intros Hdl.
    rewrite length_le_bytes in *.
    destruct (Nat.ltb_spec dl (length pre + 2)); [lia|].
    rewrite unpack_pack_h by lia. reflexivity.
Qed.

(** C4: for every delta in [-255, 255] and every state the encoder can be
    in, the encoder step succeeds; the decoder step, given the symbol the
    encoder produced and placed in the side channel where the encoder
    began to write, returns the delta and ends where the encoder ended;
    and the symbol is not the escape code 8 when |delta| <= 7. *)
Theorem symbol_roundtrip (delta : Z) (st : enc_state) :
  (-255 <= delta <= 255)%Z -> enc_wf st ->
  exists st',
    encode_comp st delta = Ok st' /\ enc_wf st' /\
    decode_symbol (decimal_vals st') (length (decimal_vals st'))
      (symbol_of delta) (length (decimal_vals st))
    = Ok (delta, length (decimal_vals st')) /\
    ((Z.abs delta <= 7)%Z -> symbol_of delta <> 8%Z).
Proof.
  intros Hd Hwf.
  assert (Z.abs delta < 32768)%Z as Ha by lia.
  pose proof (symbol_of_nibble delta Ha) as Hn.
  assert (forall dv,
    decode_symbol (dv ++ side_entry delta) (length (dv ++ side_entry delta))
      (symbol_of delta) (length dv)
    = Ok (delta, length (dv ++ side_entry delta))) as Hdec.
  { intros dv. rewrite length_app.
    rewrite <- (app_nil_r (side_entry delta)) at 1.
    apply decode_symbol_encoded; [exact Ha | lia]. }
  destruct st as [bb dv cnt cur].
  destruct Hwf as [[Hc Hb] | [Hc Hb]]; simpl in Hc, Hb; subst cnt.
  - subst cur. eexists. split; [apply encode_comp_even; exact Ha|].
    split; [right; simpl; auto|]. split; [apply Hdec|].
    intros Hs. apply symbol_of_small. lia.
  - eexists. split; [apply encode_comp_odd; assumption|].
    split; [left; simpl; auto|]. split; [apply Hdec|].
    intros Hs. apply symbol_of_small. lia.
Qed.

Lemma symbol_roundtrip_witness :
  exists st',
    encode_comp (EncState [] [] 4 3) (-200) = Ok st' /\ enc_wf st' /\
    decode_symbol (decimal_vals st') (length (decimal_vals st'))
      (symbol_of (-200)) 0
    = Ok ((-200)%Z, length (decimal_vals st')) /\
    ((Z.abs (-200) <= 7)%Z -> symbol_of (-200) <> 8%Z).
Proof.
  apply (symbol_roundtrip (-200) (EncState [] [] 4 3)).
  - lia.
  - right. simpl. lia.
Defined.

(** ** The bit packer *)

Lemma pair_ind {A} (P : list A -> Prop) :
  P [] -> (forall a, P [a]) -> (forall a b l, P l -> P (a :: b :: l)) ->
  forall l, P l.
Proof.
  intros H0 H1 H2 l.
  enough (P l /\ forall a, P (a :: l)) as [Hl _] by exact Hl.
  induction l as [|x l [IH1 IH2]]; split; auto.
Qed.

Lemma foldM_app {A B} (f : A -> B -> result A) l1 l2 a :
  foldM f (l1 ++ l2) a = letR a' := foldM f l1 a in foldM f l2 a'.
Proof.
  revert a. induction l1 as [|b l1 IH]; intros a; simpl; [reflexivity|].
  destruct (f a b); simpl; auto.
Qed.

(** A loop over [n] consecutive chunks of [m] elements is a loop over the
    elements. *)
Lemma foldM_chunks {A B} (f : A -> B -> result A) (F : A -> nat -> result A)
    (data : list B) (m base n : nat) (a : A) :
  (forall i a, i < n -> F a i = foldM f (take m (drop ((base + i) * m) data)) a) ->
  foldM F (seq 0 n) a = foldM f (take (n * m) (drop (base * m) data)) a.
Proof.
  revert a. induction n as [|n IH]; intros a HF; [reflexivity|].
  rewrite seq_S, foldM_app, IH by (intros; apply HF; lia).
  replace (S n * m) with (n * m + m) by lia.
  rewrite <- take_take_drop, foldM_app, drop_drop.
  destruct (foldM f (take (n * m) (drop (base * m) data)) a) as [a'|e];
    simpl; [|reflexivity].
  rewrite HF by lia. destruct (F a' n); simpl.
  all: replace (base * m + n * m) with ((base + n) * m) by lia.
  all: destruct (foldM f _ a'); reflexivity.
Qed.

Lemma nd_pixel_in_range a h w c y x :
  nd_shape a = (h, w, c) -> y < h -> x < w ->
  nd_pixel a y x = Ok (take c (drop ((y * w + x) * c) (nd_data a))).
Proof.
  intros Hs Hy Hx. unfold nd_pixel. rewrite Hs.
  destruct (Nat.ltb_spec y h), (Nat.ltb_spec x w); simpl; auto; lia.
Qed.

(** The three nested loops visit the elements of the delta array in
    row-major order. *)
Lemma encode_loops_flat delta H W c st :
  nd_shape delta = (H, W, c) -> nd_wf delta ->
  foldM (encode_row delta W) (seq 0 H) st = foldM encode_comp (nd_data delta) st.
Proof.
  intros Hs Hwf. unfold nd_wf in Hwf. rewrite Hs in Hwf. simpl in Hwf.
  rewrite (foldM_chunks encode_comp _ (nd_data delta) (W * c) 0 H).
  - simpl. rewrite drop_0, take_ge by lia. reflexivity.
  - intros y a Hy. unfold encode_row.
    rewrite (foldM_chunks encode_comp _ (nd_data delta) c (y * W) W).
    + f_equal. f_equal. f_equal. lia.
    + intros x a' Hx. unfold encode_pixel.
      rewrite (nd_pixel_in_range delta H W c) by assumption. reflexivity.
Qed.

(** The encoder loop followed by the flush, from a byte boundary. *)
Lemma encode_comps_flush comps : forall bb dv,
  Forall (fun c => (Z.abs c < 32768)%Z) comps ->
  (letR st := foldM encode_comp comps (EncState bb dv 0 0) in enc_flush st)
  = Ok (bb ++ spec_pack (symbol_of <$> comps), dv ++ flat_map side_entry comps).
Proof.
  induction comps as [|a|a b comps IH] using pair_ind; intros bb dv Hc.
  - simpl. rewrite !app_nil_r. reflexivity.
  - apply Forall_cons in Hc as [Ha _].
    pose proof (symbol_of_nibble a Ha) as Hn.
    cbn [foldM]. rewrite encode_comp_even by exact Ha.
    cbn -[symbol_of side_entry Z.shiftl]. unfold enc_flush, bytearray_append.
    cbn -[symbol_of side_entry Z.shiftl].
    rewrite Z.shiftl_mul_pow2 by lia.
    replace (symbol_of a * 2 ^ Z.of_nat 4)%Z with (16 * symbol_of a)%Z
      by (change (Z.of_nat 4) with 4%Z; lia).
    destruct (Z.leb_spec 0 (16 * symbol_of a)); [|lia].
    destruct (Z.ltb_spec (16 * symbol_of a) 256); [|lia].
    cbn -[symbol_of side_entry]. rewrite app_nil_r. reflexivity.
  - apply Forall_cons in Hc as [Ha Hc]. apply Forall_cons in Hc as [Hb Hc].
    cbn [foldM]. rewrite encode_comp_even by exact Ha.
    cbn -[symbol_of side_entry encode_comp].
    rewrite encode_comp_odd by (auto using symbol_of_nibble).
    cbn -[symbol_of side_entry encode_comp].
    rewrite IH by exact Hc.
    cbn -[symbol_of side_entry]. rewrite <- !app_assoc. reflexivity.
Qed.

(** What [encode_frame] returns for a delta array of the frame's shape. *)
Lemma encode_frame_spec H W delta :
  nd_shape delta = (H, W, 3) -> nd_wf delta ->
  Forall (fun c => (Z.abs c < 32768)%Z) (nd_data delta) ->
  encode_frame H W delta
  = Ok (spec_pack (symbol_of <$> nd_data delta), flat_map side_entry (nd_data delta)).
Proof.
  intros Hs Hwf Hc. unfold encode_frame.
  rewrite (encode_loops_flat delta H W 3) by assumption.
  apply (encode_comps_flush (nd_data delta) [] []). exact Hc.
Qed.

(** ** Arrays of equal shape *)

Lemma bdim_same n : bdim n n = Some n.
Proof. unfold bdim. rewrite Nat.eqb_refl. reflexivity. Qed.

Lemma bidx_lt d i : i < d -> bidx d i = i.
Proof. unfold bidx. destruct (Nat.eqb_spec d 1); lia. Qed.

Lemma flat_map_chunks {B} (F : nat -> list B) (f : nat -> B) (m base n : nat) :
  (forall i, i < n -> F i = map f (seq ((base + i) * m) m)) ->
  flat_map F (seq 0 n) = map f (seq (base * m) (n * m)).
Proof.
  induction n as [|n IH]; intros HF; [reflexivity|].
  rewrite seq_S, flat_map_app, IH by (intros; apply HF; lia).
  simpl flat_map. rewrite app_nil_r, HF by lia.
  replace (S n * m) with (n * m + m) by lia.
  rewrite seq_app, map_app. do 3 f_equal. lia.
Qed.

Lemma map_seq_zip_with (op : Z -> Z -> Z) (da db : list Z) :
  length da = length db ->
  map (fun i => op (da !!! i) (db !!! i)) (seq 0 (length da)) = zip_with op da db.
Proof.
  revert db. induction da as [|x da IH]; intros [|y db] Hl; try discriminate;
    [reflexivity|].
  change (length (x :: da)) with (S (length da)).
  cbn [seq map]. rewrite <- seq_shift, map_map. cbn [zip_with].
  f_equal. apply IH. simpl in Hl. lia.
Qed.

(** On operands of one shape, broadcasting is the elementwise operation. *)
Lemma broadcast2_same_shape op a b h w c :
  nd_shape a = (h, w, c) -> nd_shape b = (h, w, c) -> nd_wf a -> nd_wf b ->
  broadcast2 op a b = Ok (NdArray (h, w, c) (zip_with op (nd_data a) (nd_data b))).
Proof.
  intros Ha Hb Hwa Hwb. unfold nd_wf in *. rewrite Ha in Hwa. rewrite Hb in Hwb.
  simpl in Hwa, Hwb.
  unfold broadcast2. rewrite Ha, Hb, !bdim_same. do 2 f_equal.
  rewrite <- map_seq_zip_with by lia. rewrite Hwa.
  rewrite (flat_map_chunks _ (fun i => op (nd_data a !!! i) (nd_data b !!! i))
             (w * c) 0 h).
  { simpl. f_equal. f_equal. lia. }
  intros y Hy.
  rewrite (flat_map_chunks _ (fun i => op (nd_data a !!! i) (nd_data b !!! i))
             c (y * w) w).
  { f_equal. f_equal. lia. }
  intros x Hx.
  assert (seq ((y * w + x) * c) c = map (Nat.add ((y * w + x) * c)) (seq 0 c)) as ->.
  { pose proof (fmap_add_seq ((y * w + x) * c) 0 c) as Hq.
    rewrite Nat.add_0_r in Hq. symmetry. exact Hq. }
  rewrite map_map.
  apply map_ext_in. intros k Hk. apply in_seq in Hk.
  unfold nd_get. rewrite Ha, Hb, !bidx_lt by lia.
  f_equal; f_equal; lia.
Qed.

Lemma astype_int16_uint8 a : is_uint8 a -> astype_int16 a = a.
Proof.
  intros Hu. destruct a as [sh d]. unfold astype_int16. simpl. f_equal.
  unfold is_uint8 in Hu. simpl in Hu. induction Hu as [|v d Hv Hd IH]; [reflexivity|].
  cbn [fmap list_fmap]. rewrite wrap16_id by lia. f_equal. exact IH.
Qed.

(** The delta of two uint8 arrays stays within [-255, 255]. *)
Lemma zip_sub_range (da db : list Z) :
  Forall (fun v => (0 <= v <= 255)%Z) da -> Forall (fun v => (0 <= v <= 255)%Z) db ->
  Forall (fun v => (-255 <= v <= 255)%Z) (zip_with (fun u v => wrap16 (u - v)) da db).
Proof.
  intros Ha. revert db. induction Ha as [|x da Hx Ha IH]; intros db Hb; [constructor|].
  destruct Hb as [|y db Hy Hb]; [constructor|]. simpl.
  constructor; [rewrite wrap16_id; lia | apply IH, Hb].
Qed.

(** ** One encoded frame *)

Section encoded_frame.
Variables (H W : nat) (frame ref : ndarray).
Hypothesis frame_shape : nd_shape frame = (H, W, 3).
Hypothesis frame_wf : nd_wf frame.
Hypothesis frame_uint8 : is_uint8 frame.
Hypothesis ref_shape : nd_shape ref = (H, W, 3).
Hypothesis ref_wf : nd_wf ref.
Hypothesis ref_uint8 : is_uint8 ref.

Lemma nd_sub_frame : nd_sub (astype_int16 frame) ref = Ok (frame_delta H W frame ref).
Proof using All.
  rewrite astype_int16_uint8 by exact frame_uint8.
  apply broadcast2_same_shape; assumption.
Qed.

Lemma frame_delta_range :
  Forall (fun v => (-255 <= v <= 255)%Z) (nd_data (frame_delta H W frame ref)).
Proof using frame_uint8 ref_uint8. apply zip_sub_range; assumption. Qed.

Lemma frame_delta_length : length (nd_data (frame_delta H W frame ref)) = H * W * 3.
Proof using frame_shape frame_wf ref_shape ref_wf.
  unfold nd_wf in *. rewrite frame_shape in frame_wf. rewrite ref_shape in ref_wf.
  simpl in *. rewrite length_zip_with. lia.
Qed.

Lemma encode_frame_delta :
  encode_frame H W (frame_delta H W frame ref)
  = Ok (spec_pack (symbol_of <$> nd_data (frame_delta H W frame ref)),
        flat_map side_entry (nd_data (frame_delta H W frame ref))).
Proof using All.
  apply encode_frame_spec; [reflexivity | apply frame_delta_length |].
  eapply Forall_impl; [apply frame_delta_range|]. intros v Hv. simpl in Hv. lia.
Qed.

(** The record of the frame: the two lengths, the packed symbols, the side
    channel; the frame as int16 is the next reference. *)
Lemma compress_frames_record rest s :
  compress_frames H W (frame :: rest) ref s
  = (let bb := spec_pack (symbol_of <$> nd_data (frame_delta H W frame ref)) in
     let dv := flat_map side_entry (nd_data (frame_delta H W frame ref)) in
     letM hdr := lift (pack_II (Z.of_nat (length bb)) (Z.of_nat (length dv))) in
     letM _ := write hdr in
     letM _ := write bb in
     letM _ := write dv in
     compress_frames H W rest (astype_int16 frame)) s.
Proof using All.
  cbn [compress_frames]. unfold bind at 1, lift at 1.
  rewrite nd_sub_frame. unfold bind at 1, lift at 1.
  rewrite encode_frame_delta. reflexivity.
Qed.
End encoded_frame.

Lemma length_spec_pack syms : length (spec_pack syms) = (length syms + 1) / 2.
Proof.
  induction syms as [|a|a b syms IH] using pair_ind; try reflexivity.
  cbn [spec_pack length]. rewrite IH.
  replace (S (S (length syms)) + 1) with ((length syms + 1) + 1 * 2) by lia.
  rewrite Nat.div_add by lia. lia.
Qed.

Lemma spec_pack_lookup syms : forall i,
  (2 * i + 1 < length syms ->
   spec_pack syms !! i = Some (16 * (syms !!! (2 * i)%nat) + syms !!! (2 * i + 1)%nat)%Z) /\
  (2 * i + 1 = length syms ->
   spec_pack syms !! i = Some (16 * (syms !!! (2 * i)%nat) + 0)%Z).
Proof.
  induction syms as [|a|a b syms IH] using pair_ind; intros i.
  - simpl. split; lia.
  - simpl. split; [lia|]. intros Hi. assert (i = 0) as -> by lia.
    simpl. do 2 f_equal. lia.
  - destruct i as [|i].
    + split; [reflexivity | simpl; lia].
    + replace (2 * S i) with (S (S (2 * i))) by lia.
      cbn [spec_pack length]. destruct (IH i) as [IH1 IH2].
      split; intros Hi; [apply IH1 | apply IH2]; lia.
Qed.

(** C6: the bitstream of a frame record.  For a uint8 frame of shape
    H x W x 3 encoded against a reference of that shape, the record written
    by compress holds a bitstream of ceil(H*W*3 / 2) bytes; byte i carries
    symbol 2i in its high nibble and symbol 2i+1 in its low nibble, and when
    the symbol count is odd the last byte carries the last symbol above a
    zero low nibble. *)
Theorem bitstream_layout (H W : nat) (frame ref : ndarray) :
  nd_shape frame = (H, W, 3) -> nd_wf frame -> is_uint8 frame ->
  nd_shape ref = (H, W, 3) -> nd_wf ref -> is_uint8 ref ->
  exists delta bb dv,
    nd_sub (astype_int16 frame) ref = Ok delta /\
    encode_frame H W delta = Ok (bb, dv) /\
    (forall rest s,
       compress_frames H W (frame :: rest) ref s
       = (letM hdr := lift (pack_II (Z.of_nat (length bb)) (Z.of_nat (length dv))) in
          letM _ := write hdr in
          letM _ := write bb in
          letM _ := write dv in
          compress_frames H W rest (astype_int16 frame)) s) /\
    length (nd_data delta) = H * W * 3 /\
    length bb = (H * W * 3 + 1) / 2 /\
    (forall i, 2 * i + 1 < H * W * 3 ->
       bb !! i = Some (16 * symbol_of (nd_data delta !!! (2 * i)%nat)
                       + symbol_of (nd_data delta !!! (2 * i + 1)%nat))%Z) /\
    (forall i, 2 * i + 1 = H * W * 3 ->
       bb !! i = Some (16 * symbol_of (nd_data delta !!! (2 * i)%nat) + 0)%Z).
Proof.
  intros Hfs Hfw Hfu Hrs Hrw Hru.
  pose proof (frame_delta_length H W frame ref Hfs Hfw Hrs Hrw) as Hlen.
  exists (frame_delta H W frame ref), (spec_pack (symbol_of <$> nd_data (frame_delta H W frame ref))),
    (flat_map side_entry (nd_data (frame_delta H W frame ref))).
  split; [apply nd_sub_frame; assumption|].
  split; [apply encode_frame_delta; assumption|].
  split; [intros; apply compress_frames_record; assumption|].
  split; [exact Hlen|].
  split; [rewrite length_spec_pack, length_fmap, Hlen; reflexivity|].
  split; intros i Hi.
  - destruct (spec_pack_lookup (symbol_of <$> nd_data (frame_delta H W frame ref)) i)
      as [Hp _].
    rewrite Hp by (rewrite length_fmap; lia).
    rewrite !(list_lookup_total_fmap (A:=Z) (B:=Z) symbol_of) by lia. reflexivity.
  - destruct (spec_pack_lookup (symbol_of <$> nd_data (frame_delta H W frame ref)) i)
      as [_ Hp].
    rewrite Hp by (rewrite length_fmap; lia).
    rewrite !(list_lookup_total_fmap (A:=Z) (B:=Z) symbol_of) by lia. reflexivity.
Qed.

(** ** The side channel *)

Lemma side_channel_escaped comps :
  Forall (fun d => (Z.abs d < 32768)%Z) comps ->
  flat_map side_entry comps
  = flat_map (fun d => le_bytes 2 (d mod 65536)%Z) (escaped comps).
Proof.
  unfold escaped. induction 1 as [|d comps Hd Hc IH]; [reflexivity|].
  rewrite filter_cons. cbn [flat_map]. rewrite IH.
  pose proof (symbol_of_escape d Hd) as He. unfold side_entry.
  rewrite wrap16_id by lia.
  destruct (decide (symbol_of d = 8%Z)) as [Hs|Hs];
    destruct (Z.ltb_spec 7 (Z.abs d)); try reflexivity; exfalso.
  - apply He in Hs. lia.
  - apply Hs, He. lia.
Qed.

Lemma length_escaped_entries (l : list Z) :
  length (flat_map (fun d => le_bytes 2 (d mod 65536)%Z) l) = 2 * length l.
Proof.
  induction l as [|d l IH]; [reflexivity|].
  cbn [flat_map]. rewrite length_app, length_le_bytes, IH. simpl. lia.
Qed.

Lemma count_escape_symbols comps :
  length (filter (fun s => s = 8%Z) (symbol_of <$> comps)) = length (escaped comps).
Proof.
  unfold escaped. induction comps as [|d comps IH]; [reflexivity|].
  cbn [fmap list_fmap]. rewrite !filter_cons.
  destruct (decide (symbol_of d = 8%Z)); simpl; rewrite IH; reflexivity.
Qed.

(** C7: the side channel of a frame record.  For a uint8 frame of shape
    H x W x 3 encoded against a reference of that shape, the side channel
    written in the record is the concatenation, in symbol-stream order, of
    one entry per escape symbol, each the 16-bit little-endian
    two's-complement form of the escaped delta, so its byte length is twice
    the number of symbols equal to 8 in the frame's symbol stream. *)
Theorem side_channel_accounting (H W : nat) (frame ref : ndarray) :
  nd_shape frame = (H, W, 3) -> nd_wf frame -> is_uint8 frame ->
  nd_shape ref = (H, W, 3) -> nd_wf ref -> is_uint8 ref ->
  exists delta bb dv,
    nd_sub (astype_int16 frame) ref = Ok delta /\
    encode_frame H W delta = Ok (bb, dv) /\
    (forall rest s,
       compress_frames H W (frame :: rest) ref s
       = (letM hdr := lift (pack_II (Z.of_nat (length bb)) (Z.of_nat (length dv))) in
          letM _ := write hdr in
          letM _ := write bb in
          letM _ := write dv in
          compress_frames H W rest (astype_int16 frame)) s) /\
    length dv = 2 * length (filter (fun s => s = 8%Z) (symbol_of <$> nd_data delta)) /\
    dv = flat_map (fun d => le_bytes 2 (d mod 65536)%Z) (escaped (nd_data delta)) /\
    Forall (fun d => unpack_from_h (le_bytes 2 (d mod 65536)%Z) 0 = Ok d)
      (escaped (nd_data delta)).
Proof.
  intros Hfs Hfw Hfu Hrs Hrw Hru.
  pose proof (frame_delta_range H W frame ref Hfu Hru) as Hr.
  assert (Forall (fun d => (Z.abs d < 32768)%Z) (nd_data (frame_delta H W frame ref)))
    as Ha.
  { eapply Forall_impl; [exact Hr|]. intros v Hv. simpl in Hv. lia. }
  exists (frame_delta H W frame ref),
    (spec_pack (symbol_of <$> nd_data (frame_delta H W frame ref))),
    (flat_map side_entry (nd_data (frame_delta H W frame ref))).
  split; [apply nd_sub_frame; assumption|].
  split; [apply encode_frame_delta; assumption|].
  split; [intros; apply compress_frames_record; assumption|].
  rewrite side_channel_escaped by exact Ha.
  split; [rewrite length_escaped_entries, count_escape_symbols; reflexivity|].
  split; [reflexivity|].
  unfold escaped. apply Forall_forall. intros d Hd.
  apply list_elem_of_filter in Hd as [_ Hd].
  rewrite Forall_forall in Ha. specialize (Ha d Hd). simpl in Ha.
  pose proof (unpack_pack_h [] [] d) as Hu. rewrite app_nil_r in Hu.
  apply Hu. lia.
Qed.

(** ** The bit unpacker *)

Lemma length_nibbles_of bs : length (nibbles_of bs) = 2 * length bs.
Proof. induction bs as [|b bs IH]; simpl; lia. Qed.

Lemma nibbles_of_app bs1 bs2 :
  nibbles_of (bs1 ++ bs2) = nibbles_of bs1 ++ nibbles_of bs2.
Proof. apply flat_map_app. Qed.

Lemma from_bytes_big_snoc bs b :
  from_bytes_big (bs ++ [b]) = (from_bytes_big bs * 256 + b)%Z.
Proof. unfold from_bytes_big. rewrite fold_left_app. reflexivity. Qed.

Lemma land_15 a : Z.land a 15 = (a mod 16)%Z.
Proof. change 15%Z with (Z.ones 4). rewrite Z.land_ones by lia. reflexivity. Qed.

(** [(bitstream >> (bits_left - 4)) & 0xF] with [4 * k] bits consumed is
    nibble [k] of the byte string. *)
Lemma nibble_at bs : forall k,
  Forall is_byte bs -> k < 2 * length bs ->
  Z.land (Z.shiftr (from_bytes_big bs) (Z.of_nat (4 * (2 * length bs - k) - 4))) 15
  = nibbles_of bs !!! k.
Proof.
  induction bs as [|b bs IH] using rev_ind; intros k Hb Hk; [simpl in Hk; lia|].
  apply Forall_app in Hb as [Hbs Hb]. apply Forall_cons in Hb as [Hb _].
  unfold is_byte in Hb.
  rewrite length_app in *. simpl length in *.
  rewrite from_bytes_big_snoc, nibbles_of_app, land_15.
  destruct (Nat.lt_ge_cases k (2 * length bs)) as [Hlt|Hge].
  - rewrite lookup_total_app_l by (rewrite length_nibbles_of; lia).
    rewrite <- IH, land_15 by (auto; lia).
    replace (Z.of_nat (4 * (2 * (length bs + 1) - k) - 4))
      with (8 + Z.of_nat (4 * (2 * length bs - k) - 4))%Z by lia.
    rewrite <- Z.shiftr_shiftr by lia. f_equal. f_equal.
    rewrite Z.shiftr_div_pow2 by lia. change (2 ^ 8)%Z with 256%Z.
    Z.div_mod_to_equations. lia.
  - rewrite lookup_total_app_r by (rewrite length_nibbles_of; lia).
    rewrite length_nibbles_of.
    assert (k = 2 * length bs \/ k = 2 * length bs + 1) as [->| ->] by lia.
    + replace (4 * (2 * (length bs + 1) - 2 * length bs) - 4) with 4 by lia.
      replace (2 * length bs - 2 * length bs) with 0 by lia.
      rewrite Z.shiftr_div_pow2 by lia. change (2 ^ Z.of_nat 4)%Z with 16%Z.
      cbn. Z.div_mod_to_equations. lia.
    + replace (4 * (2 * (length bs + 1) - (2 * length bs + 1)) - 4) with 0 by lia.
      replace (2 * length bs + 1 - 2 * length bs) with 1 by lia.
      rewrite Z.shiftr_0_r. cbn. Z.div_mod_to_equations. lia.
Qed.

(** The nibbles of a packed symbol stream are the symbols, then the pad. *)
Lemma nibbles_of_spec_pack syms :
  Forall (fun s => (0 <= s < 16)%Z) syms ->
  nibbles_of (spec_pack syms)
  = syms ++ (if Nat.odd (length syms) then [0%Z] else []).
Proof.
  induction syms as [|a|a b syms IH] using pair_ind; intros Hs.
  - reflexivity.
  - apply Forall_cons in Hs as [Ha _]. cbn. f_equal; [|f_equal].
    all: Z.div_mod_to_equations; lia.
  - apply Forall_cons in Hs as [Ha Hs]. apply Forall_cons in Hs as [Hb Hs].
    cbn [spec_pack nibbles_of flat_map app]. fold (nibbles_of (spec_pack syms)).
    rewrite IH by exact Hs. cbn [length]. rewrite Nat.odd_succ_succ.
    cbn [app]. f_equal; [|f_equal]; Z.div_mod_to_equations; lia.
Qed.

Lemma spec_pack_is_byte syms :
  Forall (fun s => (0 <= s < 16)%Z) syms -> Forall is_byte (spec_pack syms).
Proof.
  induction syms as [|a|a b syms IH] using pair_ind; intros Hs.
  - constructor.
  - apply Forall_cons in Hs as [Ha _]. constructor; [|constructor].
    unfold is_byte. lia.
  - apply Forall_cons in Hs as [Ha Hs]. apply Forall_cons in Hs as [Hb Hs].
    cbn [spec_pack]. constructor; [unfold is_byte; lia | auto].
Qed.

Lemma decode_syms_app dd dl l1 l2 off :
  decode_syms dd dl (l1 ++ l2) off
  = letR (c1, off1) := decode_syms dd dl l1 off in
    letR (c2, off2) := decode_syms dd dl l2 off1 in
    Ok (c1 ++ c2, off2).
Proof.
  revert off. induction l1 as [|v l1 IH]; intros off.
  - simpl. destruct (decode_syms dd dl l2 off) as [[c2 off2]|e]; reflexivity.
  - cbn [app decode_syms].
    destruct (decode_symbol dd dl v off) as [[comp off']|e]; [|reflexivity].
    cbn [rbind]. rewrite IH.
    destruct (decode_syms dd dl l1 off') as [[c1 off1]|e]; [|reflexivity].
    cbn [rbind].
    destruct (decode_syms dd dl l2 off1) as [[c2 off2]|e]; reflexivity.
Qed.

Lemma decode_syms_length dd dl syms : forall off comps off',
  decode_syms dd dl syms off = Ok (comps, off') -> length comps = length syms.
Proof.
  induction syms as [|v syms IH]; intros off comps off' Hd.
  - inversion Hd. reflexivity.
  - cbn [decode_syms] in Hd.
    destruct (decode_symbol dd dl v off) as [[comp o1]|e]; [|discriminate].
    cbn [rbind] in Hd.
    destruct (decode_syms dd dl syms o1) as [[cs o2]|e] eqn:Hr; [|discriminate].
    inversion Hd; subst. simpl. f_equal. eapply IH, Hr.
Qed.

(** ** The decoder loop *)

Lemma splice_nil data i : splice data i [] = data.
Proof. unfold splice. simpl. rewrite Nat.add_0_r. apply take_drop. Qed.

Lemma length_splice data i cs :
  i + length cs <= length data -> length (splice data i cs) = length data.
Proof.
  intros Hi. unfold splice.
  rewrite !length_app, length_take, length_drop. lia.
Qed.

Lemma splice_cons_insert data i v cs :
  i < length data -> splice (<[i:=v]> data) (S i) cs = splice data i (v :: cs).
Proof.
  intros Hi. unfold splice.
  rewrite drop_insert_lt by lia.
  rewrite (take_S_r _ i v) by (apply list_lookup_insert_eq; exact Hi).
  rewrite take_insert_ge by lia. rewrite <- app_assoc. simpl.
  do 4 f_equal. lia.
Qed.

Lemma splice_splice data i c1 c2 :
  i + length c1 <= length data ->
  splice (splice data i c1) (i + length c1) c2 = splice data i (c1 ++ c2).
Proof.
  intros Hi. unfold splice.
  assert (length (take i data ++ c1) = i + length c1) as Hl
    by (rewrite length_app, length_take; lia).
  rewrite (app_assoc (take i data) c1).
  rewrite take_app_length' by (symmetry; exact Hl).
  rewrite drop_app_ge by lia. rewrite Hl, drop_drop, length_app.
  rewrite <- !app_assoc. do 4 f_equal. lia.
Qed.

Section decoder_loop.
Variables (H W : nat) (bd dd : list Z) (dl : nat).
Hypothesis bd_bytes : Forall is_byte bd.

Local Abbreviation nibs := (nibbles_of bd).
Local Abbreviation N := (2 * length bd).
Local Abbreviation arr data := (NdArray (H, W, 3) data).

Lemma drop_nibs k :
  k < N -> drop k nibs = (nibs !!! k) :: drop (S k) nibs.
Proof using Type.
  intros Hk. apply drop_S. apply list_lookup_lookup_total_lt.
  rewrite length_nibbles_of. exact Hk.
Qed.

Lemma decode_channel_spec p c data off k :
  p < H * W -> c < 3 -> k < N ->
  decode_channel W (from_bytes_big bd) dd dl p (DecState (arr data) off (4 * (N - k))) c
  = letR (comp, off') := decode_symbol dd dl (nibs !!! k) off in
    Ok (DecState (arr (<[3 * p + c := comp]> data)) off' (4 * (N - S k))).
Proof using bd_bytes.
  intros Hp Hc Hk. unfold decode_channel. cbn [bits_left dec_offset dec_delta].
  rewrite nibble_at by assumption.
  destruct (decode_symbol dd dl (nibs !!! k) off) as [[comp off']|e]; [|reflexivity].
  cbn [rbind]. unfold nd_set. cbn [nd_shape nd_data].
  assert (W <> 0) as HW by (intros ->; lia).
  pose proof (Nat.div_mod p W HW) as Hdm.
  replace ((p / W * W + p mod W) * 3 + c) with (3 * p + c) by lia.
  do 2 f_equal. lia.
Qed.

Lemma decode_pixel_spec p n : forall c k data off,
  p < H * W -> c + n <= 3 -> k <= N -> length data = H * W * 3 ->
  decode_pixel W (from_bytes_big bd) dd dl p (seq c n)
    (DecState (arr data) off (4 * (N - k)))
  = letR (comps, off') := decode_syms dd dl (take n (drop k nibs)) off in
    Ok (DecState (arr (splice data (3 * p + c) comps)) off'
          (4 * (N - k - length comps))).
Proof using bd_bytes.
  induction n as [|n IH]; intros c k data off Hp Hc Hk Hd.
  - cbn [seq decode_pixel decode_while take decode_syms rbind length Nat.mul].
    rewrite ?take_0. cbn [decode_syms rbind length].
    rewrite splice_nil, Nat.sub_0_r. reflexivity.
  - cbn [seq decode_pixel bits_left].
    destruct (Nat.ltb_spec (4 * (N - k)) 4) as [Hlt|Hge].
    + rewrite drop_ge by (rewrite length_nibbles_of; lia).
      rewrite take_nil. cbn [decode_syms rbind length].
      rewrite splice_nil, Nat.sub_0_r. reflexivity.
    + rewrite decode_channel_spec by lia.
      rewrite drop_nibs by lia. cbn [take decode_syms].
      destruct (decode_symbol dd dl (nibs !!! k) off) as [[comp off']|e];
        [|reflexivity].
      cbn [rbind]. rewrite IH by (rewrite ?length_insert; lia).
      destruct (decode_syms dd dl (take n (drop (S k) nibs)) off')
        as [[comps off'']|e]; [|reflexivity].
      cbn [rbind length]. rewrite <- splice_cons_insert by lia.
      do 2 f_equal; [f_equal; f_equal; lia | lia].
Qed.

Lemma decode_while_spec todo : forall p k data off,
  p + todo = H * W -> k <= N -> length data = H * W * 3 ->
  decode_while W (from_bytes_big bd) dd dl todo p
    (DecState (arr data) off (4 * (N - k)))
  = letR (comps, off') := decode_syms dd dl (take (3 * todo) (drop k nibs)) off in
    Ok (DecState (arr (splice data (3 * p) comps)) off'
          (4 * (N - k - length comps))).
Proof using bd_bytes.
  induction todo as [|todo IH]; intros p k data off Hp Hk Hd.
  - cbn [seq decode_pixel decode_while take decode_syms rbind length Nat.mul].
    rewrite ?take_0. cbn [decode_syms rbind length].
    rewrite splice_nil, Nat.sub_0_r. reflexivity.
  - cbn [decode_while bits_left].
    destruct (Nat.leb_spec 4 (4 * (N - k))) as [Hge|Hlt].
    2:{ rewrite drop_ge by (rewrite length_nibbles_of; lia).
        rewrite take_nil. cbn [decode_syms rbind length].
        rewrite splice_nil, Nat.sub_0_r. reflexivity. }
    rewrite (decode_pixel_spec p 3 0 k data off) by lia.
    replace (3 * S todo) with (3 + 3 * todo) by lia.
    rewrite <- take_take_drop, decode_syms_app, drop_drop.
    destruct (decode_syms dd dl (take 3 (drop k nibs)) off) as [[c1 off1]|e] eqn:H1;
      [|reflexivity].
    cbn [rbind].
    pose proof (decode_syms_length _ _ _ _ _ _ H1) as Hl1.
    rewrite length_take, length_drop, length_nibbles_of in Hl1.
    replace (4 * (N - k - length c1)) with (4 * (N - (k + length c1))) by lia.
    rewrite Nat.add_0_r.
    rewrite IH by (rewrite ?length_splice; lia).
    destruct (Nat.lt_ge_cases (N - k) 3) as [Hshort|Hfull].
    + rewrite !(drop_ge nibs) by (rewrite length_nibbles_of; lia).
      rewrite take_nil. cbn [decode_syms rbind length].
      rewrite splice_nil, app_nil_r.
      do 3 f_equal. lia.
    + replace (k + length c1) with (k + 3) by lia.
      destruct (decode_syms dd dl (take (3 * todo) (drop (k + 3) nibs)) off1)
        as [[c2 off2]|e]; [|reflexivity].
      cbn [rbind]. replace (3 * (p + 1)) with (3 * p + length c1) by lia.
      rewrite splice_splice by lia. rewrite length_app.
      do 3 f_equal. lia.
Qed.

(** The decoder loop computes [spec_decode]. *)
Lemma decode_delta_spec : decode_delta H W bd dd dl = spec_decode H W bd dd dl.
Proof using bd_bytes.
  unfold decode_delta, spec_decode, np_zeros. cbn [shape_size].
  replace (length bd * 8) with (4 * (N - 0)) by lia.
  rewrite decode_while_spec by (rewrite ?length_replicate; lia).
  rewrite drop_0. replace (3 * (H * W)) with (H * W * 3) by lia.
  destruct (decode_syms dd dl (take (H * W * 3) nibs) 0) as [[comps off]|e];
    [|reflexivity].
  cbn [rbind dec_offset dec_delta].
  destruct (negb (off =? dl)); [reflexivity|].
  unfold splice. rewrite Nat.mul_0_r, take_0, drop_replicate. reflexivity.
Qed.
End decoder_loop.

(** ** Decoding what the encoder wrote *)

Lemma decode_syms_encoded dl post comps : forall pre,
  Forall (fun c => (Z.abs c < 32768)%Z) comps ->
  length pre + length (flat_map side_entry comps) <= dl ->
  decode_syms (pre ++ flat_map side_entry comps ++ post) dl (symbol_of <$> comps)
    (length pre)
  = Ok (comps, length pre + length (flat_map side_entry comps)).
Proof.
  induction comps as [|c comps IH]; intros pre Hc Hdl.
  - simpl. rewrite Nat.add_0_r. reflexivity.
  - apply Forall_cons in Hc as [Hc Hcs].
    cbn [flat_map] in *. rewrite length_app in *.
    cbn [fmap list_fmap decode_syms]. rewrite <- (app_assoc (side_entry c)).
    rewrite decode_symbol_encoded by (auto; lia). cbn [rbind].
    specialize (IH (pre ++ side_entry c) Hcs).
    rewrite length_app, <- app_assoc in IH. rewrite IH by lia.
    cbn [rbind]. do 2 f_equal. lia.
Qed.

Lemma length_side_channel_le comps :
  length (flat_map side_entry comps) <= 2 * length comps.
Proof.
  induction comps as [|c comps IH]; [simpl; lia|].
  cbn [flat_map]. rewrite length_app, length_side_entry. simpl length.
  destruct (7 <? wrap16 (Z.abs c))%Z; lia.
Qed.

(** The frame record of an in-range delta array decodes to that array. *)
Lemma decode_delta_encoded H W comps :
  length comps = H * W * 3 ->
  Forall (fun c => (Z.abs c < 32768)%Z) comps ->
  decode_delta H W (spec_pack (symbol_of <$> comps)) (flat_map side_entry comps)
    (length (flat_map side_entry comps))
  = Ok (NdArray (H, W, 3) comps).
Proof.
  intros Hlen Hc.
  assert (Forall (fun s => (0 <= s < 16)%Z) (symbol_of <$> comps)) as Hsyms.
  { apply Forall_fmap. eapply Forall_impl; [exact Hc|].
    intros c Hv. apply symbol_of_nibble, Hv. }
  rewrite decode_delta_spec by (apply spec_pack_is_byte, Hsyms).
  unfold spec_decode. rewrite nibbles_of_spec_pack by exact Hsyms.
  rewrite take_app_length' by (rewrite length_fmap; lia).
  pose proof (decode_syms_encoded (length (flat_map side_entry comps)) [] comps []
                Hc) as Hd.
  rewrite app_nil_r in Hd. simpl in Hd. rewrite Hd by lia. cbn [rbind].
  rewrite Nat.eqb_refl. cbn [negb].
  rewrite Hlen, Nat.sub_diag. simpl. rewrite app_nil_r. reflexivity.
Qed.

(** ** The container *)

Lemma unpack_II_packed a b :
  (0 <= a < 2 ^ 32)%Z -> (0 <= b < 2 ^ 32)%Z ->
  unpack_II (le_bytes 4 a ++ le_bytes 4 b) = Ok (a, b).
Proof.
  intros Ha Hb. unfold unpack_II.
  destruct (decide _) as [_|Hn];
    [|exfalso; apply Hn; rewrite length_app, !length_le_bytes; reflexivity].
  rewrite take_app_length' by (rewrite length_le_bytes; reflexivity).
  rewrite drop_app_length' by (rewrite length_le_bytes; reflexivity).
  rewrite take_ge by (rewrite length_le_bytes; lia).
  rewrite !le_value_le_bytes by (change (256 ^ Z.of_nat 4)%Z with (2 ^ 32)%Z; lia).
  reflexivity.
Qed.

Lemma unpack_III_packed a b c :
  (0 <= a < 2 ^ 32)%Z -> (0 <= b < 2 ^ 32)%Z -> (0 <= c < 2 ^ 32)%Z ->
  unpack_III (le_bytes 4 a ++ le_bytes 4 b ++ le_bytes 4 c) = Ok (a, b, c).
Proof.
  intros Ha Hb Hc. unfold unpack_III.
  destruct (decide _) as [_|Hn];
    [|exfalso; apply Hn; rewrite !length_app, !length_le_bytes; reflexivity].
  rewrite take_app_length' by (rewrite length_le_bytes; reflexivity).
  rewrite (drop_app_length' (le_bytes 4 a)) by (rewrite length_le_bytes; reflexivity).
  rewrite take_app_length' by (rewrite length_le_bytes; reflexivity).
  rewrite (app_assoc (le_bytes 4 a)).
  rewrite drop_app_length' by (rewrite length_app, !length_le_bytes; reflexivity).
  rewrite take_ge by (rewrite length_le_bytes; lia).
  rewrite !le_value_le_bytes by (change (256 ^ Z.of_nat 4)%Z with (2 ^ 32)%Z; lia).
  reflexivity.
Qed.

(** Reading back a record that was written with its two lengths. *)
Lemma read_record_written bb dv rest :
  (Z.of_nat (length bb) < 2 ^ 32)%Z -> (Z.of_nat (length dv) < 2 ^ 32)%Z ->
  read_record ((le_bytes 4 (Z.of_nat (length bb)) ++ le_bytes 4 (Z.of_nat (length dv)))
               ++ bb ++ dv ++ rest)
  = (Ok (bb, dv, length dv), rest).
Proof.
  intros Hb Hd. unfold read_record, bind, read, lift, ret.
  rewrite take_app_length' by (rewrite length_app, !length_le_bytes; reflexivity).
  rewrite drop_app_length' by (rewrite length_app, !length_le_bytes; reflexivity).
  rewrite unpack_II_packed by lia. rewrite !Nat2Z.id.
  rewrite take_app_length, drop_app_length, take_app_length, drop_app_length.
  reflexivity.
Qed.

(** ** Reconstruction and the round trip *)

Lemma valid_zeros H W : valid_frame H W (np_zeros (H, W, 3)).
Proof.
  split; [reflexivity|]. split.
  - unfold nd_wf, np_zeros. simpl. apply length_replicate.
  - unfold is_uint8, np_zeros. cbn [nd_data]. apply Forall_replicate. lia.
Qed.

Lemma zip_add_sub (fd rd : list Z) :
  length fd = length rd ->
  Forall (fun v => (0 <= v <= 255)%Z) fd -> Forall (fun v => (0 <= v <= 255)%Z) rd ->
  zip_with (fun r d => wrap16 (r + d)) rd (zip_with (fun u v => wrap16 (u - v)) fd rd)
  = fd.
Proof.
  intros Hl Hf. revert rd Hl. induction Hf as [|u fd Hu Hf IH]; intros [|v rd] Hl Hr;
    try discriminate; [reflexivity|].
  apply Forall_cons in Hr as [Hv Hr]. cbn [zip_with].
  rewrite (wrap16_id (u - v)) by lia. rewrite wrap16_id by lia.
  f_equal; [lia|]. apply IH; [simpl in Hl; lia | exact Hr].
Qed.

Lemma clip_uint8_id (d : list Z) :
  Forall (fun v => (0 <= v <= 255)%Z) d ->
  (fun v => astype_uint8 (clip255 v)) <$> d = d.
Proof.
  induction 1 as [|v d Hv Hd IH]; [reflexivity|].
  cbn [fmap list_fmap]. f_equal; [|exact IH].
  unfold astype_uint8, clip255. rewrite Z.max_l, Z.min_l by lia.
  apply Z.mod_small. lia.
Qed.

(** Adding the delta of a frame back onto the reference gives the frame,
    as output and as next reference. *)
Lemma reconstruct_frame_delta H W frame ref :
  valid_frame H W frame -> valid_frame H W ref ->
  reconstruct ref (frame_delta H W frame ref) = Ok (frame, frame).
Proof.
  intros (Hfs & Hfw & Hfu) (Hrs & Hrw & Hru).
  unfold reconstruct, nd_add.
  rewrite (broadcast2_same_shape _ ref (frame_delta H W frame ref) H W 3);
    [|exact Hrs | reflexivity | exact Hrw | apply frame_delta_length; assumption].
  cbn [rbind]. unfold frame_delta at 1 2. cbn [nd_data].
  assert (length (nd_data frame) = length (nd_data ref)) as Hl.
  { unfold nd_wf in *. rewrite Hfw, Hrw, Hfs, Hrs. reflexivity. }
  rewrite zip_add_sub by assumption.
  unfold clip_uint8. cbn [nd_shape nd_data]. rewrite clip_uint8_id by exact Hfu.
  destruct frame as [sh d]. simpl in Hfs. subst sh. reflexivity.
Qed.

(** The records [compress] writes for a list of frames are read back by
    [decompress] as these frames. *)
Lemma frames_roundtrip H W frames :
  (Z.of_nat (6 * H * W) < 2 ^ 32)%Z ->
  forall ref s,
    Forall (valid_frame H W) frames -> valid_frame H W ref ->
    exists recs,
      compress_frames H W frames ref s = (Ok tt, s ++ recs) /\
      forall out rest,
        decompress_frames (length frames) H W ref out (recs ++ rest)
        = (Ok (out ++ frames), rest).
Proof.
  intros Hsize. induction frames as [|f frames IH]; intros ref s Hfs Href.
  - exists []. split; [cbn; rewrite app_nil_r; reflexivity|].
    intros out rest. cbn. rewrite app_nil_r. reflexivity.
  - apply Forall_cons in Hfs as [Hf Hfs].
    pose proof Hf as (Hfs1 & Hfw & Hfu). pose proof Href as (Hrs & Hrw & Hru).
    set (delta := frame_delta H W f ref).
    set (bb := spec_pack (symbol_of <$> nd_data delta)).
    set (dv := flat_map side_entry (nd_data delta)).
    pose proof (frame_delta_length H W f ref Hfs1 Hfw Hrs Hrw) as Hdl.
    fold delta in Hdl.
    assert (Forall (fun c => (Z.abs c < 32768)%Z) (nd_data delta)) as Hda.
    { eapply Forall_impl; [apply (frame_delta_range H W f ref Hfu Hru)|].
      intros v Hv. simpl in Hv. lia. }
    assert (length bb <= 3 * H * W + 1) as Hbb.
    { unfold bb. rewrite length_spec_pack, length_fmap, Hdl.
      apply Nat.Div0.div_le_upper_bound. lia. }
    assert (length dv <= 6 * H * W) as Hdv.
    { unfold dv. pose proof (length_side_channel_le (nd_data delta)). lia. }
    set (hdr := le_bytes 4 (Z.of_nat (length bb)) ++ le_bytes 4 (Z.of_nat (length dv))).
    destruct (IH (astype_int16 f) (((s ++ hdr) ++ bb) ++ dv) Hfs) as (recs & Hc & Hd).
    { rewrite astype_int16_uint8 by exact Hfu. exact Hf. }
    exists (hdr ++ bb ++ dv ++ recs). split.
    + rewrite compress_frames_record by assumption.
      fold delta. cbv zeta. fold bb dv.
      unfold pack_II. rewrite !pack_I_ok by lia. cbn [rbind].
      unfold bind at 1, lift at 1. unfold bind at 1, write at 1.
      unfold bind at 1, write at 1. unfold bind at 1, write at 1.
      fold hdr. rewrite Hc. rewrite <- !app_assoc. reflexivity.
    + intros out rest. cbn [length decompress_frames].
      unfold bind at 1. rewrite <- !app_assoc.
      unfold hdr at 1.
      rewrite read_record_written by lia.
      unfold bind at 1, lift at 1. unfold bb at 1, dv at 1 2.
      rewrite decode_delta_encoded by assumption.
      unfold bind at 1, lift at 1.
      replace (NdArray (H, W, 3) (nd_data delta)) with delta by reflexivity.
      unfold delta at 1. rewrite reconstruct_frame_delta by assumption.
      rewrite astype_int16_uint8 in Hd by exact Hfu.
      rewrite Hd, <- app_assoc. reflexivity.
Qed.

(** C1: round trip.  For a non-empty sequence of uint8 frames of one shape
    H x W x 3 whose counts fit the 32-bit fields of the container (frame
    count, height, width, and the two byte lengths of a record, at most
    6*H*W), compress succeeds and writes a file that decompress reads back
    as exactly these frames, consuming the whole file. *)
Theorem compress_decompress_roundtrip (H W : nat) (frames : list ndarray) (old : list Z) :
  frames <> [] ->
  Forall (valid_frame H W) frames ->
  (Z.of_nat (length frames) < 2 ^ 32)%Z ->
  (Z.of_nat H < 2 ^ 32)%Z -> (Z.of_nat W < 2 ^ 32)%Z ->
  (Z.of_nat (6 * H * W) < 2 ^ 32)%Z ->
  exists file,
    compress frames old = (Ok tt, file) /\
    decompress file = (Ok frames, []).
Proof.
  intros Hne Hfs Hn HH HW Hsize.
  destruct frames as [|f0 frames0]; [contradiction|].
  assert (nd_shape f0 = (H, W, 3)) as Hs0.
  { apply Forall_cons in Hfs as [(Hs & _) _]. exact Hs. }
  set (frames := f0 :: frames0) in *.
  set (hdr := le_bytes 4 (Z.of_nat (length frames)) ++ le_bytes 4 (Z.of_nat H)
                ++ le_bytes 4 (Z.of_nat W)).
  destruct (frames_roundtrip H W frames Hsize (np_zeros (H, W, 3))
              (([] ++ version) ++ hdr) Hfs (valid_zeros H W)) as (recs & Hc & Hd).
  exists (version ++ hdr ++ recs). split.
  - unfold compress. unfold frames at 1. rewrite Hs0. cbn [Nat.eqb negb].
    unfold bind at 1, open_wb at 1. unfold bind at 1, write at 1.
    unfold pack_III. rewrite !pack_I_ok by lia. cbn [rbind].
    unfold bind at 1, lift at 1. unfold bind at 1, write at 1.
    fold hdr. rewrite Hc. rewrite <- !app_assoc. reflexivity.
  - unfold decompress. unfold bind at 1, read at 1.
    change (take 4 (version ++ hdr ++ recs)) with version.
    change (drop 4 (version ++ hdr ++ recs)) with (hdr ++ recs).
    destruct (decide (version = version)) as [_|Hv]; [|contradiction].
    unfold bind at 1, read at 1.
    rewrite take_app_length' by (unfold hdr; rewrite !length_app, !length_le_bytes; reflexivity).
    rewrite drop_app_length' by (unfold hdr; rewrite !length_app, !length_le_bytes; reflexivity).
    unfold hdr at 1. rewrite unpack_III_packed by lia.
    unfold bind at 1, lift at 1. rewrite !Nat2Z.id.
    specialize (Hd [] []). rewrite app_nil_r in Hd. exact Hd.
Qed.

(** ** Shapes in the decoder *)

Lemma nd_set_shape a y x k v :
  nd_shape (nd_set a y x k v) = nd_shape a /\
  length (nd_data (nd_set a y x k v)) = length (nd_data a).
Proof.
  unfold nd_set. destruct (nd_shape a) as [[h w] c] eqn:Hs. cbn [nd_shape nd_data].
  split; [reflexivity | apply length_insert].
Qed.

Section decoder_shape.
Variables (W : nat) (bitstream : Z) (dd : list Z) (dl : nat).

Lemma decode_channel_shape p st c st' :
  decode_channel W bitstream dd dl p st c = Ok st' -> same_array st st'.
Proof using Type.
  unfold decode_channel.
  destruct (decode_symbol dd dl _ (dec_offset st)) as [[comp off]|e];
    [|discriminate].
  cbn [rbind]. intros Hst. inversion Hst; subst. apply nd_set_shape.
Qed.

Lemma decode_pixel_shape p cs : forall st st',
  decode_pixel W bitstream dd dl p cs st = Ok st' -> same_array st st'.
Proof using Type.
  induction cs as [|c cs IH]; intros st st' Hst; cbn [decode_pixel] in Hst.
  - inversion Hst; subst. split; reflexivity.
  - destruct (bits_left st <? 4); [inversion Hst; subst; split; reflexivity|].
    destruct (decode_channel W bitstream dd dl p st c) as [st1|e] eqn:H1;
      [|discriminate].
    cbn [rbind] in Hst. apply decode_channel_shape in H1 as [Ha Hb].
    apply IH in Hst as [Hc Hd]. split; congruence.
Qed.

Lemma decode_while_shape todo : forall p st st',
  decode_while W bitstream dd dl todo p st = Ok st' -> same_array st st'.
Proof using Type.
  induction todo as [|todo IH]; intros p st st' Hst; cbn [decode_while] in Hst.
  - inversion Hst; subst. split; reflexivity.
  - destruct (4 <=? bits_left st); [|inversion Hst; subst; split; reflexivity].
    destruct (decode_pixel W bitstream dd dl p (seq 0 3) st) as [st1|e] eqn:H1;
      [|discriminate].
    cbn [rbind] in Hst. apply decode_pixel_shape in H1 as [Ha Hb].
    apply IH in Hst as [Hc Hd]. split; congruence.
Qed.
End decoder_shape.

(** A decoded delta array has the shape and size of the header. *)
Lemma decode_delta_shape H W bd dd dl delta :
  decode_delta H W bd dd dl = Ok delta ->
  nd_shape delta = (H, W, 3) /\ nd_wf delta.
Proof.
  unfold decode_delta.
  destruct (decode_while _ _ _ _ _ _ _) as [st|e] eqn:Hw; [|discriminate].
  cbn [rbind]. destruct (negb (dec_offset st =? dl)); [discriminate|].
  intros Hd. inversion Hd; subst.
  apply decode_while_shape in Hw as [Hs Hl]. cbn [dec_delta] in Hs, Hl.
  unfold nd_wf. rewrite Hs, Hl. unfold np_zeros. cbn [nd_shape nd_data].
  split; [reflexivity | apply length_replicate].
Qed.

(** One turn of the loop over the records, once the record is read. *)
Lemma decompress_frames_step n H W ref out file bd dd dl rest :
  read_record file = (Ok (bd, dd, dl), rest) ->
  decompress_frames (S n) H W ref out file
  = (letM delta := lift (decode_delta H W bd dd dl) in
     letM (frame, frame_int) := lift (reconstruct ref delta) in
     decompress_frames n H W frame_int (out ++ [frame])) rest.
Proof.
  intros Hr. cbn [decompress_frames]. unfold bind at 1. rewrite Hr. reflexivity.
Qed.

Lemma clip_uint8_range (d : list Z) :
  (fun v => astype_uint8 (clip255 v)) <$> d = clip255 <$> d /\
  Forall (fun v => (0 <= v <= 255)%Z) (clip255 <$> d).
Proof.
  induction d as [|v d [IH1 IH2]]; [split; [reflexivity | constructor]|].
  cbn [fmap list_fmap].
  assert (0 <= clip255 v <= 255)%Z as Hc by (unfold clip255; lia).
  split; [|constructor; assumption].
  f_equal; [|exact IH1]. unfold astype_uint8. apply Z.mod_small. lia.
Qed.

(** What [reconstruct] returns for a reference and a delta of one shape. *)
Lemma reconstruct_same_shape H W ref delta :
  nd_shape ref = (H, W, 3) -> nd_wf ref ->
  nd_shape delta = (H, W, 3) -> nd_wf delta ->
  reconstruct ref delta
  = let sum := zip_with (fun r d => wrap16 (r + d)) (nd_data ref) (nd_data delta) in
    Ok (NdArray (H, W, 3) (clip255 <$> sum), NdArray (H, W, 3) sum).
Proof.
  intros Hrs Hrw Hds Hdw. unfold reconstruct, nd_add.
  rewrite (broadcast2_same_shape _ ref delta H W 3) by assumption.
  cbn [rbind]. unfold clip_uint8. cbn [nd_shape nd_data].
  destruct (clip_uint8_range (zip_with (fun r d => wrap16 (r + d)) (nd_data ref)
                                (nd_data delta))) as [-> _].
  reflexivity.
Qed.

(** C5: reconstruction.  In a turn of the decoder loop whose record decodes
    to a delta array, the output frame appended is the int16 sum of the
    reference and the delta clipped to [0, 255], and the reference of the
    next turn is that sum itself, unclipped; where the exact sum fits 16
    bits, the int16 sum is the exact sum. *)
Theorem reconstruct_clips_output_keeps_sum
    (n H W : nat) (ref delta : ndarray) (out : list ndarray)
    (file bd dd rest : list Z) (dl : nat) :
  nd_shape ref = (H, W, 3) -> nd_wf ref ->
  read_record file = (Ok (bd, dd, dl), rest) ->
  decode_delta H W bd dd dl = Ok delta ->
  let sum := zip_with (fun r d => wrap16 (r + d)) (nd_data ref) (nd_data delta) in
  decompress_frames (S n) H W ref out file
  = decompress_frames n H W (NdArray (H, W, 3) sum)
      (out ++ [NdArray (H, W, 3) (clip255 <$> sum)]) rest /\
  length sum = H * W * 3 /\
  (forall i r d,
     nd_data ref !! i = Some r -> nd_data delta !! i = Some d ->
     (-32768 <= r + d < 32768)%Z -> sum !! i = Some (r + d)%Z).
Proof.
  intros Hrs Hrw Hr Hd sum.
  destruct (decode_delta_shape _ _ _ _ _ _ Hd) as [Hds Hdw].
  split; [|split].
  - rewrite (decompress_frames_step n H W ref out file bd dd dl rest Hr).
    unfold bind at 1, lift at 1. rewrite Hd.
    unfold bind at 1, lift at 1.
    rewrite (reconstruct_same_shape H W ref delta) by assumption. reflexivity.
  - unfold sum, nd_wf in *. rewrite length_zip_with, Hrw, Hdw, Hrs, Hds. simpl. lia.
  - intros i r d Hi Hj Hfit. unfold sum. rewrite lookup_zip_with, Hi, Hj. simpl.
    rewrite wrap16_id by exact Hfit. reflexivity.
Qed.

(** ** Errors of the decoder *)

(** C9: side-channel accounting at decode.  In a turn of the decoder loop,
    if the symbols of the record are unpacked without a raise and the
    number of side-channel bytes consumed differs from the number declared
    in the record, decompress raises ValueError (Decimal data mismatch). *)
Theorem side_channel_mismatch_raises
    (n H W : nat) (ref : ndarray) (out : list ndarray)
    (file bd dd rest : list Z) (dl : nat) (st : dec_state) :
  read_record file = (Ok (bd, dd, dl), rest) ->
  decode_while W (from_bytes_big bd) dd dl (H * W) 0
    (DecState (np_zeros (H, W, 3)) 0 (length bd * 8)) = Ok st ->
  dec_offset st <> dl ->
  decompress_frames (S n) H W ref out file
  = (Raise (ValueError "Decimal data mismatch"), rest).
Proof.
  intros Hr Hw Hne.
  rewrite (decompress_frames_step n H W ref out file bd dd dl rest Hr).
  unfold bind at 1, lift at 1, decode_delta. rewrite Hw. cbn [rbind].
  destruct (Nat.eqb_spec (dec_offset st) dl); [contradiction | reflexivity].
Qed.

Lemma decode_syms_offset dd dl syms : forall off comps off',
  decode_syms dd dl syms off = Ok (comps, off') ->
  off' = off + 2 * length (filter (fun s => s = 8%Z) syms).
Proof.
  induction syms as [|v syms IH]; intros off comps off' Hd.
  - inversion Hd. simpl. lia.
  - cbn [decode_syms] in Hd. rewrite filter_cons.
    destruct (decode_symbol dd dl v off) as [[comp o1]|e] eqn:Hs; [|discriminate].
    cbn [rbind] in Hd.
    destruct (decode_syms dd dl syms o1) as [[cs o2]|e] eqn:Hr; [|discriminate].
    apply IH in Hr. injection Hd as _ <-. rewrite Hr.
    unfold decode_symbol in Hs.
    destruct (decide (v = 8%Z)) as [->|Hv].
    + cbn [Z.eqb Pos.eqb] in Hs. destruct (dl <? off + 2); [discriminate|].
      destruct (unpack_from_h dd off); [|discriminate].
      injection Hs as _ <-. cbn [length]. lia.
    + destruct (Z.eqb_spec v 8); [contradiction|]. injection Hs as _ <-. lia.
Qed.

(** The decoder reaches symbol [k] of a record when the [k] symbols before
    it decode without a raise; if that symbol is the escape code, the
    record decodes as the escape does at the offset reached. *)
Lemma decode_delta_at_escape H W bd dd dl k comps off e :
  Forall is_byte bd ->
  k < H * W * 3 ->
  nibbles_of bd !! k = Some 8%Z ->
  decode_syms dd dl (take k (nibbles_of bd)) 0 = Ok (comps, off) ->
  decode_symbol dd dl 8 off = Raise e ->
  decode_delta H W bd dd dl = Raise e.
Proof.
  intros Hb Hk Hsym Hpre Hesc.
  rewrite decode_delta_spec by exact Hb. unfold spec_decode.
  assert (take (H * W * 3) (nibbles_of bd)
          = take k (nibbles_of bd)
            ++ 8%Z :: drop (S k) (take (H * W * 3) (nibbles_of bd))) as ->.
  { rewrite <- (take_drop_middle (take (H * W * 3) (nibbles_of bd)) k 8%Z) at 1
      by (rewrite lookup_take_lt by exact Hk; exact Hsym).
    rewrite take_take. replace (k `min` (H * W * 3)) with k by lia. reflexivity. }
  rewrite decode_syms_app, Hpre. cbn [rbind decode_syms]. rewrite Hesc.
  reflexivity.
Qed.


(** C2 fails as stated: the truncated record is accepted and a frame with
    the wrong third channel is returned. *)
Lemma truncated_bitstream_accepted :
  compress [NdArray (1, 1, 3) [1; 2; 3]%Z] []
  = (Ok tt, (version ++ [1; 0; 0; 0; 1; 0; 0; 0; 1; 0; 0; 0]
             ++ [2; 0; 0; 0; 0; 0; 0; 0] ++ [18; 48])%Z) /\
  read_record (drop 16 truncated_file) = (Ok ([18%Z], [], 0), []) /\
  2 * length [18%Z] < 1 * 1 * 3 /\
  decompress truncated_file = (Ok [NdArray (1, 1, 3) [1; 2; 0]%Z], []).
Proof. vm_compute. repeat split; lia. Qed.

(** C2, amended: truncation of the bitstream alone is not an error.  In a
    turn of the decoder loop whose record holds fewer than H*W*3 symbols,
    the symbols present are decoded in order; if one of them raises
    (an escape without its side-channel entry) the loop raises; if the
    side-channel bytes consumed differ from the declared length the loop
    raises ValueError; otherwise the delta of every position after the last
    symbol is 0 and the loop goes on with the reconstructed frame. *)
Theorem truncated_bitstream_decodes
    (n H W : nat) (ref : ndarray) (out : list ndarray)
    (file bd dd rest : list Z) (dl : nat) :
  read_record file = (Ok (bd, dd, dl), rest) ->
  Forall is_byte bd ->
  2 * length bd < H * W * 3 ->
  decompress_frames (S n) H W ref out file
  = match decode_syms dd dl (nibbles_of bd) 0 with
    | Ok (comps, off) =>
        if off =? dl
        then (letM (frame, frame_int) :=
                lift (reconstruct ref
                        (NdArray (H, W, 3)
                           (comps ++ replicate (H * W * 3 - 2 * length bd) 0%Z))) in
              decompress_frames n H W frame_int (out ++ [frame])) rest
        else (Raise (ValueError "Decimal data mismatch"), rest)
    | Raise e => (Raise e, rest)
    end.
Proof.
  intros Hr Hb Hshort.
  rewrite (decompress_frames_step n H W ref out file bd dd dl rest Hr).
  unfold bind at 1, lift at 1.
  rewrite decode_delta_spec by exact Hb. unfold spec_decode.
  rewrite take_ge by (rewrite length_nibbles_of; lia).
  destruct (decode_syms dd dl (nibbles_of bd) 0) as [[comps off]|e] eqn:Hd;
    [|reflexivity].
  cbn [rbind]. apply decode_syms_length in Hd. rewrite length_nibbles_of in Hd.
  rewrite Hd. destruct (off =? dl); reflexivity.
Qed.

(** ** The frames decompress returns *)

Lemma decompress_frames_valid H W n : forall ref out file frames rest,
  nd_shape ref = (H, W, 3) -> nd_wf ref ->
  decompress_frames n H W ref out file = (Ok frames, rest) ->
  exists new,
    frames = out ++ new /\ length new = n /\ Forall (valid_frame H W) new.
Proof.
  induction n as [|n IH]; intros ref out file frames rest Hrs Hrw Hd.
  - cbn in Hd. injection Hd as <- _. exists []. rewrite app_nil_r. auto.
  - destruct (read_record file) as [[[[bd dd] dl]|e] rest1] eqn:Hr.
    2:{ cbn [decompress_frames] in Hd. unfold bind at 1 in Hd.
        rewrite Hr in Hd. discriminate. }
    rewrite (decompress_frames_step n H W ref out file bd dd dl rest1 Hr) in Hd.
    unfold bind at 1, lift at 1 in Hd.
    destruct (decode_delta H W bd dd dl) as [delta|e] eqn:Hdelta; [|discriminate].
    destruct (decode_delta_shape _ _ _ _ _ _ Hdelta) as [Hds Hdw].
    unfold bind at 1, lift at 1 in Hd.
    rewrite (reconstruct_same_shape H W ref delta) in Hd by assumption.
    cbv zeta in Hd.
    set (sum := zip_with (fun r d => wrap16 (r + d)) (nd_data ref) (nd_data delta)) in *.
    assert (length sum = H * W * 3) as Hsum.
    { unfold sum, nd_wf in *. rewrite length_zip_with, Hrw, Hdw, Hrs, Hds. simpl. lia. }
    apply IH in Hd as (new & -> & Hlen & Hval); [|reflexivity | exact Hsum].
    exists (NdArray (H, W, 3) (clip255 <$> sum) :: new).
    rewrite <- app_assoc. split; [reflexivity|]. split; [simpl; lia|].
    constructor; [|exact Hval].
    split; [reflexivity|]. split.
    + unfold nd_wf. cbn [nd_data nd_shape shape_size]. rewrite length_fmap. exact Hsum.
    + unfold is_uint8. cbn [nd_data]. apply clip_uint8_range.
Qed.

(** C10: whenever decompress returns, the file began with the magic and a
    12-byte header (frameCount, H, W); the list returned has frameCount
    frames, each of shape H x W x 3 with H*W*3 elements, every element
    within [0, 255]. *)
Theorem decompress_output_shape (file : list Z) (frames : list ndarray) (rest : list Z) :
  decompress file = (Ok frames, rest) ->
  exists n H W,
    take 4 file = version /\
    unpack_III (take 12 (drop 4 file)) = Ok (n, H, W) /\
    length frames = Z.to_nat n /\
    Forall (valid_frame (Z.to_nat H) (Z.to_nat W)) frames.
Proof.
  unfold decompress. unfold bind at 1, read at 1.
  destruct (decide (take 4 file = version)) as [Hm|Hm]; [|discriminate].
  unfold bind at 1, read at 1. unfold bind at 1, lift at 1.
  destruct (unpack_III (take 12 (drop 4 file))) as [[[n H] W]|e] eqn:Hu;
    [|discriminate].
  intros Hd. exists n, H, W. split; [exact Hm|]. split; [reflexivity|].
  apply decompress_frames_valid in Hd as (new & -> & Hlen & Hval).
  - split; assumption.
  - reflexivity.
  - apply valid_zeros.
Qed.

(** ** The checks of compress *)

(** C3 fails as stated: the second frame has one channel and another width
    than the first, both frames are well-formed arrays, and compress raises
    nothing: numpy broadcasts the second frame against the reference and
    the whole file is written. *)
Lemma compress_accepts_mixed_frames :
  Forall nd_wf mixed_frames /\
  compress mixed_frames []
  = (Ok tt,
     (version ++ [2; 0; 0; 0; 1; 0; 0; 0; 1; 0; 0; 0]
      ++ [2; 0; 0; 0; 0; 0; 0; 0] ++ [18; 48]
      ++ [2; 0; 0; 0; 2; 0; 0; 0] ++ [135; 96] ++ [8; 0])%Z).
Proof. split; [repeat constructor | vm_compute; reflexivity]. Qed.

(** With a second frame of four channels the subtraction raises, after the
    header and the first record have been written. *)
Example compress_raises_after_writing :
  compress [NdArray (1, 1, 3) [1; 2; 3]%Z; NdArray (1, 1, 4) [9; 9; 9; 9]%Z] []
  = (Raise (ValueError "operands could not be broadcast together"),
     (version ++ [2; 0; 0; 0; 1; 0; 0; 0; 1; 0; 0; 0]
      ++ [2; 0; 0; 0; 0; 0; 0; 0] ++ [18; 48])%Z).
Proof. vm_compute. reflexivity. Qed.

(** C3, amended: compress raises ValueError at entry, with the output file
    not opened and its old contents untouched, whenever the sequence is
    empty or its first frame does not have exactly 3 channels. *)
Theorem compress_rejects_at_entry (frames : list ndarray) (old : list Z) :
  (frames = [] \/
   exists f0 rest H W C, frames = f0 :: rest /\ nd_shape f0 = (H, W, C) /\ C <> 3) ->
  exists msg, compress frames old = (Raise (ValueError msg), old).
Proof.
  intros [->|(f0 & rest & H & W & C & -> & Hs & HC)].
  - eexists. reflexivity.
  - unfold compress. rewrite Hs.
    destruct (Nat.eqb_spec C 3) as [->|_]; [contradiction|].
    eexists. reflexivity.
Qed.

(** ** The theorems at concrete inputs *)

Lemma compress_decompress_roundtrip_witness :
  exists file,
    compress [NdArray (1, 2, 3) [80; 140; 220; 80; 140; 20]%Z;
              NdArray (1, 2, 3) [81; 140; 220; 80; 130; 255]%Z] [] = (Ok tt, file) /\
    decompress file
    = (Ok [NdArray (1, 2, 3) [80; 140; 220; 80; 140; 20]%Z;
           NdArray (1, 2, 3) [81; 140; 220; 80; 130; 255]%Z], []).
Proof.
  apply (compress_decompress_roundtrip 1 2).
  - discriminate.
  - repeat (constructor; [split; [reflexivity|]; split; [reflexivity|];
                          unfold is_uint8; simpl; repeat (constructor; [lia|]); constructor|]).
    constructor.
  - simpl. lia.
  - simpl. lia.
  - simpl. lia.
  - simpl. lia.
Defined.

Lemma truncated_bitstream_decodes_witness :
  decompress_frames 1 1 1 (np_zeros (1, 1, 3)) [] [1; 0; 0; 0; 0; 0; 0; 0; 18]%Z
  = (Ok [NdArray (1, 1, 3) [1; 2; 0]%Z], []).
Proof.
  eapply eq_trans.
  - apply (truncated_bitstream_decodes 0 1 1 (np_zeros (1, 1, 3)) []
             [1; 0; 0; 0; 0; 0; 0; 0; 18]%Z [18%Z] [] [] 0).
    + reflexivity.
    + constructor; [unfold is_byte; lia | constructor].
    + simpl. lia.
  - reflexivity.
Defined.

Lemma compress_rejects_at_entry_witness :
  exists msg,
    compress [NdArray (1, 1, 4) [1; 2; 3; 4]%Z] [7%Z] = (Raise (ValueError msg), [7%Z]).
Proof.
  apply (compress_rejects_at_entry [NdArray (1, 1, 4) [1; 2; 3; 4]%Z] [7%Z]).
  right. exists (NdArray (1, 1, 4) [1; 2; 3; 4]%Z), [], 1, 1, 4.
  split; [reflexivity|]. split; [reflexivity | lia].
Defined.

(** The reference (250, 5, 100) and the deltas (+10, -10, 0): the sums
    260 and -5 are clipped in the output and kept in the next reference. *)
Lemma reconstruct_clips_output_keeps_sum_witness :
  decompress_frames 1 1 1 (NdArray (1, 1, 3) [250; 5; 100]%Z) []
    [2; 0; 0; 0; 4; 0; 0; 0; 136; 0; 10; 0; 246; 255]%Z
  = decompress_frames 0 1 1 (NdArray (1, 1, 3) [260; -5; 100]%Z)
      ([] ++ [NdArray (1, 1, 3) [255; 0; 100]%Z]) [].
Proof.
  apply (reconstruct_clips_output_keeps_sum 0 1 1
           (NdArray (1, 1, 3) [250; 5; 100]%Z) (NdArray (1, 1, 3) [10; -10; 0]%Z) []
           [2; 0; 0; 0; 4; 0; 0; 0; 136; 0; 10; 0; 246; 255]%Z
           [136; 0]%Z [10; 0; 246; 255]%Z [] 4);
    reflexivity.
Defined.

Lemma bitstream_layout_witness :
  exists delta bb dv,
    nd_sub (astype_int16 (NdArray (1, 1, 3) [1; 200; 3]%Z)) (np_zeros (1, 1, 3))
    = Ok delta /\
    encode_frame 1 1 delta = Ok (bb, dv) /\
    length bb = 2 /\
    bb !! 0 = Some (16 * symbol_of (nd_data delta !!! 0%nat)
                    + symbol_of (nd_data delta !!! 1%nat))%Z /\
    bb !! 1 = Some (16 * symbol_of (nd_data delta !!! 2%nat) + 0)%Z.
Proof.
  destruct (bitstream_layout 1 1 (NdArray (1, 1, 3) [1; 200; 3]%Z) (np_zeros (1, 1, 3)))
    as (delta & bb & dv & Hs & He & _ & _ & Hl & Hp & Ho).
  - reflexivity.
  - reflexivity.
  - unfold is_uint8; simpl; repeat (constructor; [lia|]); constructor.
  - reflexivity.
  - reflexivity.
  - unfold is_uint8; simpl; repeat (constructor; [lia|]); constructor.
  - exists delta, bb, dv. split; [exact Hs|]. split; [exact He|].
    split; [exact Hl|]. split; [apply (Hp 0); simpl; lia | apply (Ho 1); reflexivity].
Defined.

Lemma side_channel_accounting_witness :
  exists delta bb dv,
    nd_sub (astype_int16 (NdArray (1, 1, 3) [1; 200; 3]%Z)) (np_zeros (1, 1, 3))
    = Ok delta /\
    encode_frame 1 1 delta = Ok (bb, dv) /\
    length dv = 2 * length (filter (fun s => s = 8%Z) (symbol_of <$> nd_data delta)) /\
    dv = flat_map (fun d => le_bytes 2 (d mod 65536)%Z) (escaped (nd_data delta)).
Proof.
  destruct (side_channel_accounting 1 1 (NdArray (1, 1, 3) [1; 200; 3]%Z)
              (np_zeros (1, 1, 3)))
    as (delta & bb & dv & Hs & He & _ & Hl & Hd & _).
  - reflexivity.
  - reflexivity.
  - unfold is_uint8; simpl; repeat (constructor; [lia|]); constructor.
  - reflexivity.
  - reflexivity.
  - unfold is_uint8; simpl; repeat (constructor; [lia|]); constructor.
  - exists delta, bb, dv. auto.
Defined.


Lemma side_channel_mismatch_raises_witness :
  decompress_frames 1 1 1 (np_zeros (1, 1, 3)) []
    [2; 0; 0; 0; 2; 0; 0; 0; 18; 48; 7; 7]%Z
  = (Raise (ValueError "Decimal data mismatch"), []).
Proof.
  apply (side_channel_mismatch_raises 0 1 1 (np_zeros (1, 1, 3)) []
           [2; 0; 0; 0; 2; 0; 0; 0; 18; 48; 7; 7]%Z [18; 48]%Z [7; 7]%Z [] 2
           (DecState (NdArray (1, 1, 3) [1; 2; 3]%Z) 0 4)).
  - reflexivity.
  - reflexivity.
  - simpl. lia.
Defined.

Lemma decompress_output_shape_witness :
  exists n H W,
    take 4 (version ++ [1; 0; 0; 0; 1; 0; 0; 0; 1; 0; 0; 0]
            ++ [2; 0; 0; 0; 0; 0; 0; 0] ++ [18; 48])%Z = version /\
    unpack_III (take 12 (drop 4 (version ++ [1; 0; 0; 0; 1; 0; 0; 0; 1; 0; 0; 0]
                                 ++ [2; 0; 0; 0; 0; 0; 0; 0] ++ [18; 48])%Z))
    = Ok (n, H, W) /\
    length [NdArray (1, 1, 3) [1; 2; 3]%Z] = Z.to_nat n /\
    Forall (valid_frame (Z.to_nat H) (Z.to_nat W)) [NdArray (1, 1, 3) [1; 2; 3]%Z].
Proof.
  apply (decompress_output_shape _ _ []). reflexivity.
Defined.

(** * Further properties *)

(** ** The layout of the file *)

Lemma compress_frames_layout H W frames :
  (Z.of_nat (6 * H * W) < 2 ^ 32)%Z ->
  forall ref s,
    Forall (valid_frame H W) frames -> valid_frame H W ref ->
    compress_frames H W frames ref s = (Ok tt, s ++ frame_records H W frames ref).
Proof.
  intros Hsize. induction frames as [|f frames IH]; intros ref s Hfs Href.
  - cbn. rewrite app_nil_r. reflexivity.
  - apply Forall_cons in Hfs as [Hf Hfs].
    pose proof Hf as (Hfs1 & Hfw & Hfu). pose proof Href as (Hrs & Hrw & Hru).
    pose proof (frame_delta_length H W f ref Hfs1 Hfw Hrs Hrw) as Hdl.
    rewrite compress_frames_record by assumption. cbv zeta.
    set (bb := spec_pack (symbol_of <$> nd_data (frame_delta H W f ref))).
    set (dv := flat_map side_entry (nd_data (frame_delta H W f ref))).
    assert (length bb <= 3 * H * W + 1) as Hbb.
    { unfold bb. rewrite length_spec_pack, length_fmap, Hdl.
      apply Nat.Div0.div_le_upper_bound. lia. }
    assert (length dv <= 6 * H * W) as Hdv.
    { unfold dv. pose proof (length_side_channel_le (nd_data (frame_delta H W f ref))).
      lia. }
    unfold pack_II. rewrite !pack_I_ok by lia. cbn [rbind].
    unfold bind at 1, lift at 1. unfold bind at 1, write at 1.
    unfold bind at 1, write at 1. unfold bind at 1, write at 1.
    rewrite astype_int16_uint8 by exact Hfu.
    rewrite IH by assumption.
    cbn [frame_records]. unfold frame_record. cbv zeta. fold bb dv.
    rewrite <- !app_assoc. reflexivity.
Qed.

(** X1: the file compress writes is the container of the spec: magic,
    frame count, height, width, and one record per frame, the first
    encoded against zeros and each later one against the frame before. *)
Theorem compress_writes_container (H W : nat) (frames : list ndarray) (old : list Z) :
  frames <> [] ->
  Forall (valid_frame H W) frames ->
  (Z.of_nat (length frames) < 2 ^ 32)%Z ->
  (Z.of_nat H < 2 ^ 32)%Z -> (Z.of_nat W < 2 ^ 32)%Z ->
  (Z.of_nat (6 * H * W) < 2 ^ 32)%Z ->
  compress frames old = (Ok tt, container H W frames).
Proof.
  intros Hne Hfs Hn HH HW Hsize.
  destruct frames as [|f0 frames0]; [contradiction|].
  assert (nd_shape f0 = (H, W, 3)) as Hs0.
  { apply Forall_cons in Hfs as [(Hs & _) _]. exact Hs. }
  set (frames := f0 :: frames0) in *.
  unfold compress. unfold frames at 1. rewrite Hs0. cbn [Nat.eqb negb].
  unfold bind at 1, open_wb at 1. unfold bind at 1, write at 1.
  unfold pack_III. rewrite !pack_I_ok by lia. cbn [rbind].
  unfold bind at 1, lift at 1. unfold bind at 1, write at 1.
  rewrite compress_frames_layout by (auto using valid_zeros).
  unfold container. rewrite <- !app_assoc. reflexivity.
Qed.

Lemma two_equal_frames_valid :
  Forall (valid_frame 1 1) [NdArray (1, 1, 3) [1; 200; 3]%Z;
                            NdArray (1, 1, 3) [1; 200; 3]%Z].
Proof.
  repeat (constructor; [split; [reflexivity|]; split; [reflexivity|];
                        unfold is_uint8; simpl; repeat (constructor; [lia|]); constructor|]).
  constructor.
Qed.

Lemma compress_writes_container_witness :
  compress [NdArray (1, 1, 3) [1; 200; 3]%Z; NdArray (1, 1, 3) [1; 200; 3]%Z] [9%Z]
  = (Ok tt,
     (version ++ [2; 0; 0; 0; 1; 0; 0; 0; 1; 0; 0; 0]
      ++ [2; 0; 0; 0; 2; 0; 0; 0; 24; 48; 200; 0]
      ++ [2; 0; 0; 0; 0; 0; 0; 0; 0; 0])%Z).
Proof.
  eapply eq_trans; [apply (compress_writes_container 1 1 _ [9%Z])|reflexivity].
  - discriminate.
  - apply two_equal_frames_valid.
  - simpl. lia.
  - simpl. lia.
  - simpl. lia.
  - simpl. lia.
Defined.

(** X2: bytes that follow the last record of a file written by compress
    are not read: decompress returns the frames and leaves them. *)
Theorem decompress_leaves_trailing_bytes
    (H W : nat) (frames : list ndarray) (old extra : list Z) :
  frames <> [] ->
  Forall (valid_frame H W) frames ->
  (Z.of_nat (length frames) < 2 ^ 32)%Z ->
  (Z.of_nat H < 2 ^ 32)%Z -> (Z.of_nat W < 2 ^ 32)%Z ->
  (Z.of_nat (6 * H * W) < 2 ^ 32)%Z ->
  exists file,
    compress frames old = (Ok tt, file) /\
    decompress (file ++ extra) = (Ok frames, extra).
Proof.
  intros Hne Hfs Hn HH HW Hsize.
  exists (container H W frames).
  split; [apply compress_writes_container; assumption|].
  destruct (frames_roundtrip H W frames Hsize (np_zeros (H, W, 3)) [] Hfs
              (valid_zeros H W)) as (recs & Hc & Hd).
  rewrite compress_frames_layout in Hc by (auto using valid_zeros).
  injection Hc as Hc. simpl in Hc. subst recs.
  set (hdr := le_bytes 4 (Z.of_nat (length frames)) ++ le_bytes 4 (Z.of_nat H)
                ++ le_bytes 4 (Z.of_nat W)).
  replace (container H W frames ++ extra)
    with (version ++ hdr ++ frame_records H W frames (np_zeros (H, W, 3)) ++ extra)
    by (unfold container, hdr; rewrite <- !app_assoc; reflexivity).
  unfold decompress. unfold bind at 1, read at 1.
  change (take 4 (version ++ ?l)) with version.
  change (drop 4 (version ++ ?l)) with l.
  destruct (decide (version = version)) as [_|Hv]; [|contradiction].
  unfold bind at 1, read at 1.
  rewrite take_app_length' by (unfold hdr; rewrite !length_app, !length_le_bytes; reflexivity).
  rewrite drop_app_length' by (unfold hdr; rewrite !length_app, !length_le_bytes; reflexivity).
  unfold hdr at 1. rewrite unpack_III_packed by lia.
  unfold bind at 1, lift at 1. rewrite !Nat2Z.id.
  apply (Hd [] extra).
Qed.

Lemma decompress_leaves_trailing_bytes_witness :
  exists file,
    compress [NdArray (1, 1, 3) [1; 200; 3]%Z; NdArray (1, 1, 3) [1; 200; 3]%Z] []
    = (Ok tt, file) /\
    decompress (file ++ [7; 7; 7]%Z)
    = (Ok [NdArray (1, 1, 3) [1; 200; 3]%Z; NdArray (1, 1, 3) [1; 200; 3]%Z],
       [7; 7; 7]%Z).
Proof.
  apply (decompress_leaves_trailing_bytes 1 1).
  - discriminate.
  - apply two_equal_frames_valid.
  - simpl. lia.
  - simpl. lia.
  - simpl. lia.
  - simpl. lia.
Defined.

(** ** The size of the file *)

Lemma length_frame_record H W f ref :
  valid_frame H W f -> valid_frame H W ref ->
  8 + (H * W * 3 + 1) / 2 <= length (frame_record H W f ref)
  /\ length (frame_record H W f ref) <= 8 + (H * W * 3 + 1) / 2 + 6 * H * W.
Proof.
  intros (Hfs & Hfw & Hfu) (Hrs & Hrw & Hru).
  pose proof (frame_delta_length H W f ref Hfs Hfw Hrs Hrw) as Hdl.
  pose proof (length_side_channel_le (nd_data (frame_delta H W f ref))) as Hdv.
  unfold frame_record. cbv zeta.
  rewrite !length_app, !length_le_bytes, length_spec_pack, length_fmap, Hdl.
  lia.
Qed.

Lemma length_frame_records H W frames : forall ref,
  Forall (valid_frame H W) frames -> valid_frame H W ref ->
  length frames * (8 + (H * W * 3 + 1) / 2) <= length (frame_records H W frames ref)
  /\ length (frame_records H W frames ref)
     <= length frames * (8 + (H * W * 3 + 1) / 2 + 6 * H * W).
Proof.
  induction frames as [|f frames IH]; intros ref Hfs Href; [simpl; lia|].
  apply Forall_cons in Hfs as [Hf Hfs].
  destruct (length_frame_record H W f ref Hf Href) as [Hlo Hhi].
  destruct (IH f Hfs Hf) as [IHlo IHhi].
  cbn [frame_records length]. rewrite length_app.
  rewrite !Nat.mul_succ_l. lia.
Qed.

(** X3: the size of the file compress writes.  With n frames of
    H x W x 3 channel values, the file has 16 bytes of header and, for each
    frame, 8 bytes of lengths, ceil(H*W*3 / 2) bytes of bitstream and at
    most 2 bytes of side channel per channel value. *)
Theorem compressed_size_bounds (H W : nat) (frames : list ndarray) (old : list Z) :
  frames <> [] ->
  Forall (valid_frame H W) frames ->
  (Z.of_nat (length frames) < 2 ^ 32)%Z ->
  (Z.of_nat H < 2 ^ 32)%Z -> (Z.of_nat W < 2 ^ 32)%Z ->
  (Z.of_nat (6 * H * W) < 2 ^ 32)%Z ->
  exists file,
    compress frames old = (Ok tt, file) /\
    16 + length frames * (8 + (H * W * 3 + 1) / 2) <= length file /\
    length file <= 16 + length frames * (8 + (H * W * 3 + 1) / 2 + 6 * H * W).
Proof.
  intros Hne Hfs Hn HH HW Hsize.
  exists (container H W frames).
  split; [apply compress_writes_container; assumption|].
  destruct (length_frame_records H W frames (np_zeros (H, W, 3)) Hfs (valid_zeros H W))
    as [Hlo Hhi].
  unfold container. rewrite !length_app, !length_le_bytes.
  change (length version) with 4. lia.
Qed.

Lemma compressed_size_bounds_witness :
  exists file,
    compress [NdArray (1, 1, 3) [1; 200; 3]%Z; NdArray (1, 1, 3) [1; 200; 3]%Z] []
    = (Ok tt, file) /\
    16 + 2 * (8 + (1 * 1 * 3 + 1) / 2) <= length file /\
    length file <= 16 + 2 * (8 + (1 * 1 * 3 + 1) / 2 + 6 * 1 * 1).
Proof.
  apply (compressed_size_bounds 1 1
           [NdArray (1, 1, 3) [1; 200; 3]%Z; NdArray (1, 1, 3) [1; 200; 3]%Z] []).
  - discriminate.
  - apply two_equal_frames_valid.
  - simpl. lia.
  - simpl. lia.
  - simpl. lia.
  - simpl. lia.
Defined.

(** ** Frames that cost least and most *)

Lemma encode_zero_delta (delta : list Z) :
  Forall (fun d => d = 0%Z) delta ->
  spec_pack (symbol_of <$> delta) = replicate ((length delta + 1) / 2) 0%Z /\
  flat_map side_entry delta = [].
Proof.
  induction delta as [|a|a b delta IH] using pair_ind; intros Hz.
  - split; reflexivity.
  - apply Forall_cons in Hz as [-> _]. split; reflexivity.
  - apply Forall_cons in Hz as [-> Hz]. apply Forall_cons in Hz as [-> Hz].
    destruct (IH Hz) as [IH1 IH2].
    cbn [fmap list_fmap spec_pack flat_map length].
    change (list_fmap Z Z symbol_of delta) with (symbol_of <$> delta).
    rewrite IH1, IH2.
    replace (S (S (length delta)) + 1) with ((length delta + 1) + 1 * 2) by lia.
    rewrite Nat.div_add by lia.
    replace ((length delta + 1) / 2 + 1) with (S ((length delta + 1) / 2)) by lia.
    split; reflexivity.
Qed.

Lemma zip_sub_self (d : list Z) :
  Forall (fun v => v = 0%Z) (zip_with (fun u v => wrap16 (u - v)) d d).
Proof.
  induction d as [|x d IH]; [constructor|].
  cbn [zip_with]. constructor; [|exact IH].
  rewrite Z.sub_diag. reflexivity.
Qed.

(** X4: a frame equal to the reference (a picture that did not change)
    is written as a record of ceil(H*W*3 / 2) zero bytes of bitstream and
    an empty side channel. *)
Theorem unchanged_frame_record (H W : nat) (f : ndarray) (rest : list ndarray) (s : list Z) :
  valid_frame H W f ->
  (Z.of_nat ((H * W * 3 + 1) / 2) < 2 ^ 32)%Z ->
  compress_frames H W (f :: rest) f s
  = compress_frames H W rest f
      (s ++ le_bytes 4 (Z.of_nat ((H * W * 3 + 1) / 2)) ++ [0; 0; 0; 0]%Z
         ++ replicate ((H * W * 3 + 1) / 2) 0%Z).
Proof.
  intros (Hfs & Hfw & Hfu) Hsize.
  rewrite compress_frames_record by assumption. cbv zeta.
  destruct (encode_zero_delta (nd_data (frame_delta H W f f)) (zip_sub_self _))
    as [-> ->].
  rewrite (frame_delta_length H W f f) by assumption.
  rewrite length_replicate. cbn [length].
  unfold pack_II. rewrite !pack_I_ok by lia. cbn [rbind].
  unfold bind at 1, lift at 1. unfold bind at 1, write at 1.
  unfold bind at 1, write at 1. unfold bind at 1, write at 1.
  rewrite astype_int16_uint8 by exact Hfu.
  rewrite app_nil_r, <- !app_assoc. reflexivity.
Qed.

Lemma unchanged_frame_record_witness :
  compress_frames 1 1 [NdArray (1, 1, 3) [1; 200; 3]%Z] (NdArray (1, 1, 3) [1; 200; 3]%Z) []
  = (Ok tt, [2; 0; 0; 0; 0; 0; 0; 0; 0; 0]%Z).
Proof.
  eapply eq_trans; [apply (unchanged_frame_record 1 1)|reflexivity].
  - split; [reflexivity|]. split; [reflexivity|].
    unfold is_uint8; simpl; repeat (constructor; [lia|]); constructor.
  - simpl. lia.
Defined.

Lemma symbol_of_uint8 v :
  (0 <= v <= 255)%Z -> symbol_of v = if (v <=? 7)%Z then v else 8%Z.
Proof.
  intros Hv. unfold symbol_of. rewrite wrap16_id by lia.
  rewrite Z.abs_eq by lia.
  destruct (Z.leb_spec v 7); [|reflexivity].
  destruct (Z.leb_spec 0 v); [reflexivity | lia].
Qed.

Lemma side_entry_uint8 v :
  (0 <= v <= 255)%Z -> side_entry v = if (7 <? v)%Z then [v; 0%Z] else [].
Proof.
  intros Hv. unfold side_entry. rewrite wrap16_id by lia.
  rewrite Z.abs_eq by lia.
  destruct (Z.ltb_spec 7 v); [|reflexivity].
  cbn [le_bytes]. f_equal; [|f_equal]; Z.div_mod_to_equations; lia.
Qed.

Lemma zip_sub_zeros (d : list Z) n :
  length d = n -> Forall (fun v => (0 <= v <= 255)%Z) d ->
  zip_with (fun u v => wrap16 (u - v)) d (replicate n 0%Z) = d.
Proof.
  intros <- Hd. induction Hd as [|v d Hv Hd IH]; [reflexivity|].
  cbn [length replicate zip_with]. rewrite IH.
  rewrite wrap16_id by lia. f_equal. lia.
Qed.

(** X5: the first frame is encoded against zeros, so its symbols are its
    channel values: a value up to 7 is its own symbol, every larger value
    is an escape symbol and the two side-channel bytes (value, 0). *)
Theorem first_frame_record (H W : nat) (f : ndarray) (rest : list ndarray) (s : list Z) :
  valid_frame H W f ->
  compress_frames H W (f :: rest) (np_zeros (H, W, 3)) s
  = (let bb := spec_pack ((fun v => if (v <=? 7)%Z then v else 8%Z) <$> nd_data f) in
     let dv := flat_map (fun v => if (7 <? v)%Z then [v; 0%Z] else []) (nd_data f) in
     letM hdr := lift (pack_II (Z.of_nat (length bb)) (Z.of_nat (length dv))) in
     letM _ := write hdr in
     letM _ := write bb in
     letM _ := write dv in
     compress_frames H W rest (astype_int16 f)) s.
Proof.
  intros (Hfs & Hfw & Hfu).
  destruct (valid_zeros H W) as (Hzs & Hzw & Hzu).
  rewrite compress_frames_record by assumption. cbv zeta.
  unfold frame_delta, np_zeros. cbn [nd_data shape_size].
  rewrite zip_sub_zeros by (unfold nd_wf in Hfw; rewrite Hfs in Hfw; auto).
  assert (symbol_of <$> nd_data f
          = (fun v => if (v <=? 7)%Z then v else 8%Z) <$> nd_data f) as ->.
  { unfold is_uint8 in Hfu. induction Hfu as [|v d Hv Hd IH]; [reflexivity|].
    cbn [fmap list_fmap]. rewrite symbol_of_uint8 by exact Hv. f_equal. exact IH. }
  assert (flat_map side_entry (nd_data f)
          = flat_map (fun v => if (7 <? v)%Z then [v; 0%Z] else []) (nd_data f)) as ->.
  { unfold is_uint8 in Hfu. induction Hfu as [|v d Hv Hd IH]; [reflexivity|].
    cbn [flat_map]. rewrite side_entry_uint8 by exact Hv. f_equal. exact IH. }
  reflexivity.
Qed.

Lemma first_frame_record_witness :
  compress_frames 1 1 [NdArray (1, 1, 3) [1; 200; 3]%Z] (np_zeros (1, 1, 3)) []
  = (Ok tt, [2; 0; 0; 0; 2; 0; 0; 0; 24; 48; 200; 0]%Z).
Proof.
  eapply eq_trans; [apply (first_frame_record 1 1)|reflexivity].
  split; [reflexivity|]. split; [reflexivity|].
  unfold is_uint8; simpl; repeat (constructor; [lia|]); constructor.
Defined.

(** ** What the decoder reads of a record *)

(** X6: the delta array of a record depends on the bitstream only through
    its first H*W*3 nibbles: the pad nibble and any bytes after it are
    never looked at. *)
Theorem decode_reads_expected_nibbles_only
    (H W : nat) (bd1 bd2 dd : list Z) (dl : nat) :
  Forall is_byte bd1 -> Forall is_byte bd2 ->
  take (H * W * 3) (nibbles_of bd1) = take (H * W * 3) (nibbles_of bd2) ->
  decode_delta H W bd1 dd dl = decode_delta H W bd2 dd dl.
Proof.
  intros Hb1 Hb2 Hn. rewrite !decode_delta_spec by assumption.
  unfold spec_decode. rewrite Hn. reflexivity.
Qed.

Lemma decode_reads_expected_nibbles_only_witness :
  decode_delta 1 1 [18; 48]%Z [] 0 = decode_delta 1 1 [18; 63; 255]%Z [] 0.
Proof.
  apply (decode_reads_expected_nibbles_only 1 1 [18; 48]%Z [18; 63; 255]%Z [] 0).
  - repeat (constructor; [unfold is_byte; lia|]). constructor.
  - repeat (constructor; [unfold is_byte; lia|]). constructor.
  - reflexivity.
Defined.

Lemma decode_syms_ok dd dl syms : forall off,
  dl <= length dd ->
  off + 2 * length (filter (fun s => s = 8%Z) syms) <= dl ->
  exists comps,
    decode_syms dd dl syms off
    = Ok (comps, off + 2 * length (filter (fun s => s = 8%Z) syms)).
Proof.
  induction syms as [|v syms IH]; intros off Hdd Hdl.
  - exists []. simpl. rewrite Nat.add_0_r. reflexivity.
  - rewrite filter_cons in *. cbn [decode_syms].
    destruct (decide (v = 8%Z)) as [->|Hv].
    + cbn [length] in *. unfold decode_symbol. cbn [Z.eqb Pos.eqb].
      destruct (Nat.ltb_spec dl (off + 2)); [lia|].
      unfold unpack_from_h. destruct (decide (off + 2 <= length dd)); [|lia].
      cbn [rbind]. destruct (IH (off + 2) Hdd) as (comps & ->); [lia|].
      cbn [rbind]. eexists. do 2 f_equal. lia.
    + rewrite decode_symbol_small by exact Hv. cbn [rbind].
      destruct (IH off Hdd Hdl) as (comps & ->). cbn [rbind].
      eexists. reflexivity.
Qed.

(** X7: when the file holds the side-channel bytes the record declares,
    the record decodes if and only if the declared side-channel length is
    twice the number of escape symbols among the symbols read. *)
Theorem record_decodes_iff_side_channel_matches
    (H W : nat) (bd dd : list Z) (dl : nat) :
  Forall is_byte bd -> dl <= length dd ->
  ((exists delta, decode_delta H W bd dd dl = Ok delta)
   <-> dl = 2 * escapes_read H W bd).
Proof.
  intros Hb Hdd. rewrite decode_delta_spec by exact Hb.
  unfold spec_decode, escapes_read. split.
  - intros [delta Hd].
    destruct (decode_syms dd dl (take (H * W * 3) (nibbles_of bd)) 0)
      as [[comps off]|e] eqn:Hs; [|discriminate].
    cbn [rbind] in Hd. apply decode_syms_offset in Hs.
    destruct (Nat.eqb_spec off dl); [lia | discriminate].
  - intros Hdl.
    destruct (decode_syms_ok dd dl (take (H * W * 3) (nibbles_of bd)) 0 Hdd)
      as (comps & ->); [lia|].
    cbn [rbind]. rewrite Nat.add_0_l, <- Hdl, Nat.eqb_refl. cbn [negb].
    eexists. reflexivity.
Qed.

Lemma record_decodes_iff_side_channel_matches_witness :
  (exists delta, decode_delta 1 1 [24; 48]%Z [200; 0]%Z 2 = Ok delta)
  <-> 2 = 2 * escapes_read 1 1 [24; 48]%Z.
Proof.
  apply (record_decodes_iff_side_channel_matches 1 1 [24; 48]%Z [200; 0]%Z 2).
  - repeat (constructor; [unfold is_byte; lia|]). constructor.
  - simpl. lia.
Defined.

(** X8: every symbol other than the escape code decodes, without touching
    the side channel, to a delta within [-7, 7] whose symbol it is: the
    fifteen direct symbols and the deltas -7..7 correspond one to one. *)
Theorem direct_symbol_decodes_to_its_delta (dd : list Z) (dl : nat) (v : Z) (off : nat) :
  (0 <= v < 16)%Z -> v <> 8%Z ->
  exists d,
    decode_symbol dd dl v off = Ok (d, off) /\
    (-7 <= d <= 7)%Z /\ symbol_of d = v.
Proof.
  intros Hv Hne. exists (small_delta v).
  split; [apply decode_symbol_small, Hne|].
  assert (v = 0 \/ v = 1 \/ v = 2 \/ v = 3 \/ v = 4 \/ v = 5 \/ v = 6 \/ v = 7 \/
          v = 9 \/ v = 10 \/ v = 11 \/ v = 12 \/ v = 13 \/ v = 14 \/ v = 15)%Z
    as Hc by lia.
  repeat (destruct Hc as [-> | Hc]); try subst v;
    vm_compute; (split; [split|]); congruence.
Qed.

Lemma direct_symbol_decodes_to_its_delta_witness :
  exists d,
    decode_symbol [] 0 13 0 = Ok (d, 0) /\ (-7 <= d <= 7)%Z /\ symbol_of d = 13%Z.
Proof.
  apply (direct_symbol_decodes_to_its_delta [] 0 13 0); lia.
Defined.

(** ** Short files *)

Lemma read_record_consumes file bd dd dl rest :
  read_record file = (Ok (bd, dd, dl), rest) ->
  file = take 8 file ++ bd ++ dd ++ rest /\ length (take 8 file) = 8.
Proof.
  unfold read_record, bind, read, lift, ret, unpack_II.
  destruct (decide (length (take 8 file) = 8)) as [Hl|]; [|discriminate].
  intros Hr. inversion Hr; subst. split; [|exact Hl].
  rewrite !take_drop. reflexivity.
Qed.

Lemma decompress_frames_consumes H W n : forall ref out file frames rest,
  decompress_frames n H W ref out file = (Ok frames, rest) ->
  exists pre, file = pre ++ rest /\ 8 * n <= length pre.
Proof.
  induction n as [|n IH]; intros ref out file frames rest Hd.
  - cbn in Hd. injection Hd as _ <-. exists []. split; [reflexivity | simpl; lia].
  - destruct (read_record file) as [[[[bd dd] dl]|e] rest1] eqn:Hr.
    2:{ cbn [decompress_frames] in Hd. unfold bind at 1 in Hd.
        rewrite Hr in Hd. discriminate. }
    rewrite (decompress_frames_step n H W ref out file bd dd dl rest1 Hr) in Hd.
    unfold bind at 1, lift at 1 in Hd.
    destruct (decode_delta H W bd dd dl) as [delta|e]; [|discriminate].
    unfold bind at 1, lift at 1 in Hd.
    destruct (reconstruct ref delta) as [[frame frame_int]|e]; [|discriminate].
    apply IH in Hd as (pre & Hpre & Hlen).
    apply read_record_consumes in Hr as [Hfile Hl8].
    exists (take 8 file ++ bd ++ dd ++ pre). split.
    + rewrite Hfile at 1. rewrite Hpre, <- !app_assoc. reflexivity.
    + rewrite !length_app, Hl8. lia.
Qed.

(** X9: decompress reads forward only.  Whenever it returns, the bytes
    left are a suffix of the file, and the bytes before them are at least
    the 16 bytes of header and 8 bytes of lengths for each frame returned. *)
Theorem decompress_consumes_headers (file : list Z) (frames : list ndarray) (rest : list Z) :
  decompress file = (Ok frames, rest) ->
  exists pre, file = pre ++ rest /\ 16 + 8 * length frames <= length pre.
Proof.
  unfold decompress. unfold bind at 1, read at 1.
  destruct (decide (take 4 file = version)) as [Hm|Hm]; [|discriminate].
  unfold bind at 1, read at 1. unfold bind at 1, lift at 1.
  destruct (unpack_III (take 12 (drop 4 file))) as [[[n H] W]|e] eqn:Hu;
    [|discriminate].
  intros Hd.
  assert (length (take 12 (drop 4 file)) = 12) as Hl12.
  { unfold unpack_III in Hu. destruct (decide _) as [Hl|]; [exact Hl | discriminate]. }
  assert (length (take 4 file) = 4) as Hl4 by (rewrite Hm; reflexivity).
  destruct (decompress_frames_valid (Z.to_nat H) (Z.to_nat W) (Z.to_nat n)
              (np_zeros (Z.to_nat H, Z.to_nat W, 3)) [] (drop 12 (drop 4 file))
              frames rest)
    as (new & Hnew & Hlen & _);
    [reflexivity | apply valid_zeros | exact Hd |].
  simpl in Hnew. subst new.
  apply decompress_frames_consumes in Hd as (pre & Hpre & Hlpre).
  exists (take 4 file ++ take 12 (drop 4 file) ++ pre). split.
  - rewrite <- !app_assoc, <- Hpre, !take_drop. reflexivity.
  - rewrite !length_app, Hl4, Hl12. lia.
Qed.

Lemma decompress_consumes_headers_witness :
  exists pre,
    (version ++ [1; 0; 0; 0; 1; 0; 0; 0; 1; 0; 0; 0]
     ++ [2; 0; 0; 0; 0; 0; 0; 0] ++ [18; 48] ++ [7; 7])%Z = pre ++ [7; 7]%Z /\
    16 + 8 * length [NdArray (1, 1, 3) [1; 2; 3]%Z] <= length pre.
Proof.
  apply (decompress_consumes_headers _ [NdArray (1, 1, 3) [1; 2; 3]%Z] [7; 7]%Z).
  reflexivity.
Defined.

(** X10: a file that starts with the magic but ends before the 12 bytes
    of header are complete makes decompress raise struct.error, not the
    ValueError of a bad magic. *)
Theorem truncated_header_raises_struct_error (file : list Z) :
  take 4 file = version -> length file < 16 ->
  decompress file = (Raise StructError, []).
Proof.
  intros Hm Hl. unfold decompress. unfold bind at 1, read at 1.
  destruct (decide (take 4 file = version)) as [_|Hn]; [|contradiction].
  unfold bind at 1, read at 1. unfold bind at 1, lift at 1, unpack_III.
  destruct (decide (length (take 12 (drop 4 file)) = 12)) as [Hl12|_].
  - rewrite length_take, length_drop in Hl12. lia.
  - rewrite drop_drop, drop_ge by lia. reflexivity.
Qed.

Lemma truncated_header_raises_struct_error_witness :
  decompress (version ++ [1; 0; 0; 0; 1; 0]%Z) = (Raise StructError, []).
Proof.
  apply truncated_header_raises_struct_error.
  - reflexivity.
  - simpl. lia.
Defined.

(** X11: in any turn of the loop over the records, fewer than 8 bytes left
    in the file (the file ends before all announced records) make
    decompress raise struct.error. *)
Theorem missing_record_raises_struct_error
    (n H W : nat) (ref : ndarray) (out : list ndarray) (file : list Z) :
  length file < 8 ->
  decompress_frames (S n) H W ref out file = (Raise StructError, []).
Proof.
  intros Hl. cbn [decompress_frames]. unfold bind at 1.
  unfold read_record. unfold bind at 1, read at 1.
  unfold bind at 1, lift at 1, unpack_II.
  destruct (decide (length (take 8 file) = 8)) as [Hl8|_].
  - rewrite length_take in Hl8. lia.
  - rewrite drop_ge by lia. reflexivity.
Qed.

Lemma missing_record_raises_struct_error_witness :
  decompress_frames 1 1 1 (np_zeros (1, 1, 3)) [] [2; 0; 0; 0]%Z
  = (Raise StructError, []).
Proof.
  apply missing_record_raises_struct_error. simpl. lia.
Defined.

(** X12: in a turn of the decoder loop, when an escape symbol is read for
    which the record declares two more side-channel bytes but the file
    supplied fewer than that (the file ends inside the side channel), the
    test of line 95 passes and [struct.unpack_from] raises struct.error. *)
Theorem escape_with_missing_bytes_raises_struct_error
    (n H W : nat) (ref : ndarray) (out : list ndarray)
    (file bd dd rest : list Z) (dl k : nat) (comps : list Z) (off : nat) :
  read_record file = (Ok (bd, dd, dl), rest) ->
  Forall is_byte bd ->
  k < H * W * 3 ->
  nibbles_of bd !! k = Some 8%Z ->
  decode_syms dd dl (take k (nibbles_of bd)) 0 = Ok (comps, off) ->
  off + 2 <= dl ->
  length dd < off + 2 ->
  decompress_frames (S n) H W ref out file = (Raise StructError, rest).
Proof.
  intros Hr Hb Hk Hsym Hpre Hdl Hdd.
  rewrite (decompress_frames_step n H W ref out file bd dd dl rest Hr).
  unfold bind at 1, lift at 1.
  rewrite (decode_delta_at_escape H W bd dd dl k comps off StructError);
    try assumption.
  - reflexivity.
  - unfold decode_symbol, unpack_from_h. cbn [Z.eqb Pos.eqb].
    destruct (Nat.ltb_spec dl (off + 2)); [lia|].
    destruct (decide (off + 2 <= length dd)); [lia | reflexivity].
Qed.

Lemma escape_with_missing_bytes_raises_struct_error_witness :
  decompress_frames 1 1 1 (np_zeros (1, 1, 3)) [] [2; 0; 0; 0; 2; 0; 0; 0; 128; 0]%Z
  = (Raise StructError, []).
Proof.
  apply (escape_with_missing_bytes_raises_struct_error 0 1 1 (np_zeros (1, 1, 3)) []
           [2; 0; 0; 0; 2; 0; 0; 0; 128; 0]%Z [128; 0]%Z [] [] 2 0 [] 0).
  - reflexivity.
  - repeat (constructor; [unfold is_byte; lia|]). constructor.
  - simpl. lia.
  - reflexivity.
  - reflexivity.
  - lia.
  - simpl. lia.
Defined.

(** ** What decides the outcome of decompress *)

Lemma bind_lift_ok {A B} (a : A) (k : A -> io B) s :
  bind (lift (Ok a)) k s = k a s.
Proof. reflexivity. Qed.

Lemma bind_lift_raise {A B} (e : exn) (k : A -> io B) s :
  bind (lift (Raise e)) k s = (Raise e, s).
Proof. reflexivity. Qed.

Lemma decompress_frames_no_record n H W ref out file e rest :
  read_record file = (Raise e, rest) ->
  decompress_frames (S n) H W ref out file = (Raise e, rest).
Proof.
  intros Hr. cbn [decompress_frames]. unfold bind at 1. rewrite Hr. reflexivity.
Qed.

Lemma decompress_outcome_independent H W n : forall r1 r2 o1 o2 file,
  nd_shape r1 = (H, W, 3) -> nd_wf r1 -> nd_shape r2 = (H, W, 3) -> nd_wf r2 ->
  same_outcome (decompress_frames n H W r1 o1 file)
               (decompress_frames n H W r2 o2 file).
Proof.
  induction n as [|n IH]; intros r1 r2 o1 o2 file Hs1 Hw1 Hs2 Hw2.
  - cbn. reflexivity.
  - destruct (read_record file) as [[[[bd dd] dl]|e] rest1] eqn:Hr.
    2:{ rewrite !(decompress_frames_no_record n H W _ _ file e rest1 Hr).
        cbn. auto. }
    rewrite !(decompress_frames_step n H W _ _ file bd dd dl rest1 Hr).
    destruct (decode_delta H W bd dd dl) as [delta|e] eqn:Hdelta;
      [|rewrite !bind_lift_raise; cbn; auto].
    destruct (decode_delta_shape _ _ _ _ _ _ Hdelta) as [Hds Hdw].
    rewrite !bind_lift_ok.
    rewrite !(reconstruct_same_shape H W _ delta) by assumption. cbv zeta.
    rewrite !bind_lift_ok.
    apply IH; try reflexivity.
    all: unfold nd_wf in *; cbn [nd_data nd_shape shape_size];
      rewrite length_zip_with, ?Hw1, ?Hw2, Hdw, ?Hs1, ?Hs2, Hds; simpl; lia.
Qed.

(** X13: whether the loop over the records succeeds, which exception it
    raises and which bytes it leaves unread do not depend on the reference
    frame nor on the frames decoded so far: the pixel values a file
    reconstructs, in range or not, never make decompress fail. *)
Theorem decode_outcome_ignores_pixels
    (n H W : nat) (r1 r2 : ndarray) (o1 o2 : list ndarray) (file : list Z) :
  nd_shape r1 = (H, W, 3) -> nd_wf r1 -> nd_shape r2 = (H, W, 3) -> nd_wf r2 ->
  same_outcome (decompress_frames n H W r1 o1 file)
               (decompress_frames n H W r2 o2 file).
Proof. apply decompress_outcome_independent. Qed.

Lemma decode_outcome_ignores_pixels_witness :
  same_outcome
    (decompress_frames 1 1 1 (np_zeros (1, 1, 3)) []
       [2; 0; 0; 0; 2; 0; 0; 0; 24; 48; 200; 0]%Z)
    (decompress_frames 1 1 1 (NdArray (1, 1, 3) [250; 250; 250]%Z) []
       [2; 0; 0; 0; 2; 0; 0; 0; 24; 48; 200; 0]%Z).
Proof.
  apply (decode_outcome_ignores_pixels 1 1 1); reflexivity.
Defined.

(** ** What compress leaves in the file *)

Lemma compress_frames_appends H W frames : forall ref s,
  exists t, snd (compress_frames H W frames ref s) = s ++ t.
Proof.
  induction frames as [|f frames IH]; intros ref s.
  - exists []. cbn. rewrite app_nil_r. reflexivity.
  - cbn [compress_frames]. unfold bind at 1, lift at 1.
    destruct (nd_sub (astype_int16 f) ref) as [delta|e];
      [|exists []; cbn; rewrite app_nil_r; reflexivity].
    unfold bind at 1, lift at 1.
    destruct (encode_frame H W delta) as [[bb dv]|e];
      [|exists []; cbn; rewrite app_nil_r; reflexivity].
    unfold bind at 1, lift at 1.
    destruct (pack_II _ _) as [hdr|e];
      [|exists []; cbn; rewrite app_nil_r; reflexivity].
    unfold bind at 1, write at 1. unfold bind at 1, write at 1.
    unfold bind at 1, write at 1.
    destruct (IH (astype_int16 f) (((s ++ hdr) ++ bb) ++ dv)) as (t & Ht).
    exists (hdr ++ bb ++ dv ++ t). rewrite Ht, <- !app_assoc. reflexivity.
Qed.

(** X14: once the two checks at entry have passed, whatever the frames
    are and whether or not compress then raises, the old contents of the
    output file are gone and the file begins with the magic. *)
Theorem compress_replaces_old_contents
    (f0 : ndarray) (rest : list ndarray) (H W : nat) (old : list Z) :
  nd_shape f0 = (H, W, 3) ->
  exists t, snd (compress (f0 :: rest) old) = version ++ t.
Proof.
  intros Hs. unfold compress. rewrite Hs. cbn [Nat.eqb negb].
  unfold bind at 1, open_wb at 1. unfold bind at 1, write at 1.
  unfold bind at 1, lift at 1.
  destruct (pack_III _ _ _) as [hdr|e]; [|exists []; reflexivity].
  unfold bind at 1, write at 1.
  destruct (compress_frames_appends H W (f0 :: rest) (np_zeros (H, W, 3))
              (([] ++ version) ++ hdr)) as (t & Ht).
  exists (hdr ++ t). rewrite Ht, <- !app_assoc. reflexivity.
Qed.

Lemma compress_replaces_old_contents_witness :
  exists t,
    snd (compress [NdArray (1, 1, 3) [1; 2; 3]%Z; NdArray (1, 1, 4) [9; 9; 9; 9]%Z]
           [7; 7; 7]%Z)
    = version ++ t.
Proof.
  apply (compress_replaces_old_contents _ _ 1 1). reflexivity.
Defined.

Lemma broadcast2_incompatible op a b ha wa ca hb wb cb :
  nd_shape a = (ha, wa, ca) -> nd_shape b = (hb, wb, cb) ->
  bdim ha hb = None \/ bdim wa wb = None \/ bdim ca cb = None ->
  broadcast2 op a b = Raise (ValueError "operands could not be broadcast together").
Proof.
  intros Ha Hb Hn. unfold broadcast2. rewrite Ha, Hb.
  destruct (bdim ha hb), (bdim wa wb), (bdim ca cb); try reflexivity.
  destruct Hn as [Hn|[Hn|Hn]]; discriminate.
Qed.

(** X15: no cleanup on failure.  When the second frame has a shape that
    cannot be broadcast against the first, compress raises numpy's
    ValueError only after the header and the record of the first frame
    have been written, and these stay in the file. *)
Theorem incompatible_frame_leaves_partial_file
    (H W h w c : nat) (f0 f1 : ndarray) (rest : list ndarray) (old : list Z) :
  valid_frame H W f0 ->
  nd_shape f1 = (h, w, c) ->
  bdim h H = None \/ bdim w W = None \/ bdim c 3 = None ->
  (Z.of_nat (length (f0 :: f1 :: rest)) < 2 ^ 32)%Z ->
  (Z.of_nat H < 2 ^ 32)%Z -> (Z.of_nat W < 2 ^ 32)%Z ->
  (Z.of_nat (6 * H * W) < 2 ^ 32)%Z ->
  compress (f0 :: f1 :: rest) old
  = (Raise (ValueError "operands could not be broadcast together"),
     version ++ le_bytes 4 (Z.of_nat (length (f0 :: f1 :: rest)))
     ++ le_bytes 4 (Z.of_nat H) ++ le_bytes 4 (Z.of_nat W)
     ++ frame_record H W f0 (np_zeros (H, W, 3))).
Proof.
  intros Hf0 Hs1 Hbad Hn HH HW Hsize.
  pose proof Hf0 as (Hfs & Hfw & Hfu).
  unfold compress. rewrite Hfs. cbn [Nat.eqb negb].
  unfold bind at 1, open_wb at 1. unfold bind at 1, write at 1.
  unfold pack_III. rewrite !pack_I_ok by lia. cbn [rbind].
  unfold bind at 1, lift at 1. unfold bind at 1, write at 1.
  pose proof (compress_frames_layout H W [f0] Hsize (np_zeros (H, W, 3))) as Hone.
  destruct (valid_zeros H W) as (Hzs & Hzw & Hzu).
  rewrite compress_frames_record by assumption. cbv zeta.
  pose proof (frame_delta_length H W f0 (np_zeros (H, W, 3)) Hfs Hfw Hzs Hzw) as Hdl.
  set (bb := spec_pack (symbol_of <$> nd_data (frame_delta H W f0 (np_zeros (H, W, 3))))).
  set (dv := flat_map side_entry (nd_data (frame_delta H W f0 (np_zeros (H, W, 3))))).
  assert (length bb <= 3 * H * W + 1) as Hbb.
  { unfold bb. rewrite length_spec_pack, length_fmap, Hdl.
    apply Nat.Div0.div_le_upper_bound. lia. }
  assert (length dv <= 6 * H * W) as Hdv.
  { unfold dv.
    pose proof (length_side_channel_le
                  (nd_data (frame_delta H W f0 (np_zeros (H, W, 3))))). lia. }
  unfold pack_II. rewrite !pack_I_ok by lia. cbn [rbind].
  unfold bind at 1, lift at 1. unfold bind at 1, write at 1.
  unfold bind at 1, write at 1. unfold bind at 1, write at 1.
  cbn [compress_frames]. unfold bind at 1, lift at 1.
  unfold nd_sub. rewrite (broadcast2_incompatible _ _ _ h w c H W 3).
  - unfold frame_record. cbv zeta. fold bb dv.
    rewrite <- !app_assoc. reflexivity.
  - exact Hs1.
  - rewrite astype_int16_uint8 by exact Hfu. exact Hfs.
  - exact Hbad.
Qed.

Lemma incompatible_frame_leaves_partial_file_witness :
  compress [NdArray (1, 1, 3) [1; 2; 3]%Z; NdArray (1, 1, 4) [9; 9; 9; 9]%Z] []
  = (Raise (ValueError "operands could not be broadcast together"),
     (version ++ [2; 0; 0; 0; 1; 0; 0; 0; 1; 0; 0; 0]
      ++ [2; 0; 0; 0; 0; 0; 0; 0; 18; 48])%Z).
Proof.
  eapply eq_trans;
    [apply (incompatible_frame_leaves_partial_file 1 1 1 1 4)|reflexivity].
  - split; [reflexivity|]. split; [reflexivity|].
    unfold is_uint8; simpl; repeat (constructor; [lia|]); constructor.
  - reflexivity.
  - right. right. reflexivity.
  - simpl. lia.
  - simpl. lia.
  - simpl. lia.
  - simpl. lia.
Defined.

(** ** The exceptions of the record loop *)

Lemma decode_symbol_raises dd dl v off e :
  decode_symbol dd dl v off = Raise e ->
  e = ValueError "Missing large delta bytes" \/ e = StructError.
Proof.
  unfold decode_symbol, unpack_from_h.
  destruct (v =? 8)%Z; [|discriminate].
  destruct (dl <? off + 2); [intros He; injection He as <-; auto|].
  destruct (decide _); [discriminate|].
  cbn [rbind]. intros He; injection He as <-; auto.
Qed.

Lemma decode_pixel_raises W bs dd dl p cs : forall st e,
  decode_pixel W bs dd dl p cs st = Raise e ->
  e = ValueError "Missing large delta bytes" \/ e = StructError.
Proof.
  induction cs as [|c cs IH]; intros st e Hd; cbn [decode_pixel] in Hd;
    [discriminate|].
  destruct (bits_left st <? 4); [discriminate|].
  unfold decode_channel in Hd.
  destruct (decode_symbol dd dl _ (dec_offset st)) as [[comp off]|e1] eqn:Hs.
  - cbn [rbind] in Hd. eapply IH, Hd.
  - cbn [rbind] in Hd. injection Hd as <-. eapply decode_symbol_raises, Hs.
Qed.

Lemma decode_while_raises W bs dd dl todo : forall p st e,
  decode_while W bs dd dl todo p st = Raise e ->
  e = ValueError "Missing large delta bytes" \/ e = StructError.
Proof.
  induction todo as [|todo IH]; intros p st e Hd; cbn [decode_while] in Hd;
    [discriminate|].
  destruct (4 <=? bits_left st); [|discriminate].
  destruct (decode_pixel W bs dd dl p (seq 0 3) st) as [st1|e1] eqn:Hp.
  - cbn [rbind] in Hd. eapply IH, Hd.
  - cbn [rbind] in Hd. injection Hd as <-. eapply decode_pixel_raises, Hp.
Qed.

Lemma decode_delta_raises H W bd dd dl e :
  decode_delta H W bd dd dl = Raise e ->
  e = ValueError "Missing large delta bytes" \/ e = StructError \/
  e = ValueError "Decimal data mismatch".
Proof.
  unfold decode_delta.
  destruct (decode_while _ _ _ _ _ _ _) as [st|e1] eqn:Hw.
  - cbn [rbind]. destruct (negb _); [|discriminate].
    intros He; injection He as <-. auto.
  - cbn [rbind]. intros He; injection He as <-.
    apply decode_while_raises in Hw as [->| ->]; auto.
Qed.

Lemma read_record_raises file e rest :
  read_record file = (Raise e, rest) -> e = StructError.
Proof.
  unfold read_record, bind, read, lift, ret, unpack_II.
  destruct (decide _); [discriminate|].
  intros He; injection He as <- _. reflexivity.
Qed.

Lemma decompress_frames_raises H W n : forall ref out file e rest,
  nd_shape ref = (H, W, 3) -> nd_wf ref ->
  decompress_frames n H W ref out file = (Raise e, rest) ->
  e = ValueError "Missing large delta bytes" \/ e = StructError \/
  e = ValueError "Decimal data mismatch".
Proof.
  induction n as [|n IH]; intros ref out file e rest Hrs Hrw Hd; [discriminate|].
  destruct (read_record file) as [[[[bd dd] dl]|e1] rest1] eqn:Hr.
  2:{ rewrite (decompress_frames_no_record n H W _ _ file e1 rest1 Hr) in Hd.
      injection Hd as <- _. apply read_record_raises in Hr as ->. auto. }
  rewrite (decompress_frames_step n H W _ _ file bd dd dl rest1 Hr) in Hd.
  destruct (decode_delta H W bd dd dl) as [delta|e1] eqn:Hdelta.
  2:{ rewrite bind_lift_raise in Hd. injection Hd as <- _.
      eapply decode_delta_raises, Hdelta. }
  destruct (decode_delta_shape _ _ _ _ _ _ Hdelta) as [Hds Hdw].
  rewrite bind_lift_ok in Hd.
  rewrite (reconstruct_same_shape H W _ delta) in Hd by assumption. cbv zeta in Hd.
  rewrite bind_lift_ok in Hd.
  eapply IH; [| |exact Hd]; [reflexivity|].
  unfold nd_wf in *. cbn [nd_data nd_shape shape_size].
  rewrite length_zip_with, Hrw, Hdw, Hrs, Hds. simpl. lia.
Qed.

(** X16: once the header is read and the reference is allocated, the loop
    over the frame records raises nothing but ValueError (Missing large
    delta bytes), ValueError (Decimal data mismatch) and struct.error: the
    addition of the decoded delta to the reference never raises. *)
Theorem record_loop_raises_only
    (n H W : nat) (ref : ndarray) (out : list ndarray) (file : list Z)
    (e : exn) (rest : list Z) :
  nd_shape ref = (H, W, 3) -> nd_wf ref ->
  decompress_frames n H W ref out file = (Raise e, rest) ->
  e = ValueError "Missing large delta bytes" \/ e = StructError \/
  e = ValueError "Decimal data mismatch".
Proof. apply decompress_frames_raises. Qed.

Lemma record_loop_raises_only_witness :
  ValueError "Decimal data mismatch" = ValueError "Missing large delta bytes" \/
  ValueError "Decimal data mismatch" = StructError \/
  ValueError "Decimal data mismatch" = ValueError "Decimal data mismatch".
Proof.
  apply (record_loop_raises_only 1 1 1 (np_zeros (1, 1, 3)) []
           [2; 0; 0; 0; 2; 0; 0; 0; 18; 48; 7; 7]%Z
           (ValueError "Decimal data mismatch") []);
    reflexivity.
Defined.
